(** * Micro Scraper API: the request pipeline of [routes/scrape.ts]

    A shallow embedding of the GET /api/scrape handler: URL validation, the
    lazy engine import, [attemptScrape], the retry loop [overallPromise], the
    race against the global timer and the mapping of the outcome to a status
    code and a JSON body.  The second route file of the repository (the
    variant without per-attempt logging) is embedded in [Module Plain].

    The browser engine is an external collaborator.  Its behaviour is a
    [World]: for every call site of every attempt, whether the awaited
    promise resolves, rejects or never settles, and after how long.  An
    [await] is a monadic bind over a state that carries the clock, the
    record of engine calls and the console. *)

From Stdlib Require Import String Ascii List Bool Arith NArith Lia.
Import ListNotations.
Local Open Scope string_scope.
Local Open Scope N_scope.
Local Open Scope list_scope.

(** ** JavaScript values the handler touches *)

(** [s.includes(needle)]: [needle] occurs in [s] as a substring. *)
Fixpoint includes (needle s : string) : bool :=
  String.prefix needle s ||
  match s with
  | EmptyString => false
  | String _ rest => includes needle rest
  end.

(** White space removed by [String.prototype.trim], restricted to the
    characters below U+0080: TAB, LF, VT, FF, CR and SPACE. *)
Definition is_space (c : ascii) : bool :=
  let n := nat_of_ascii c in
  ((9 <=? n) && (n <=? 13))%nat || (n =? 32)%nat.

Fixpoint trim_start (s : string) : string :=
  match s with
  | EmptyString => EmptyString
  | String c rest => if is_space c then trim_start rest else s
  end.

Fixpoint trim_end (s : string) : string :=
  match s with
  | EmptyString => EmptyString
  | String c rest =>
      match trim_end rest with
      | EmptyString => if is_space c then EmptyString else String c EmptyString
      | rest' => String c rest'
      end
  end.

Definition trim (s : string) : string := trim_end (trim_start s).

(** A string is falsy exactly when it is empty. *)
Definition truthy (s : string) : bool :=
  match s with
  | EmptyString => false
  | _ => true
  end.

(** [x || null] for [x : string]. *)
Definition or_null (s : string) : option string :=
  if truthy s then Some s else None.

(** [x || undefined] for [x : string | undefined]. *)
Definition or_undefined (x : option string) : option string :=
  match x with
  | Some s => or_null s
  | None => None
  end.

(** An [Error] object; such an object is always truthy. *)
Record JsError : Type := Error { message : string }.

(** JSON documents, as far as [res.json] produces them here. *)
#[local] Set Warnings "-register-all".
Inductive Json : Type :=
| JNull
| JNum (n : N)
| JStr (s : string)
| JObj (fields : list (string * Json)).
#[local] Set Warnings "register-all".

Definition json_of_nullable (x : option string) : Json :=
  match x with
  | Some s => JStr s
  | None => JNull
  end.

Fixpoint assoc (k : string) (fields : list (string * Json)) : option Json :=
  match fields with
  | [] => None
  | (k', v) :: rest => if String.eqb k k' then Some v else assoc k rest
  end.

(** The member [k] of a JSON object. *)
Definition member (k : string) (j : Json) : option Json :=
  match j with
  | JObj fields => assoc k fields
  | _ => None
  end.

(** ** Constants of the route *)

Definition GLOBAL_TIMEOUT_MS : N := 20000.
Definition NAVIGATION_TIMEOUT_MS : N := 15000.
Definition MAX_ATTEMPTS : nat := 2.

(** ** Requests, results and responses *)

(** [req.query.url] and [req.query.ua], each a string or undefined. *)
Record Request : Type := mkRequest {
  q_url : option string;
  q_ua : option string
}.

(** The object literal [{ title, metaDescription, h1, status: 200 }];
    [None] is [null]. *)
Record ScrapeResult : Type := mkScrapeResult {
  title : option string;
  metaDescription : option string;
  h1 : option string;
  status : N
}.

Definition json_of_result (r : ScrapeResult) : Json :=
  JObj [ ("title", json_of_nullable (title r));
         ("metaDescription", json_of_nullable (metaDescription r));
         ("h1", json_of_nullable (h1 r));
         ("status", JNum (status r)) ].

(** [res.status(code).json(body)]. *)
Record Response : Type := mkResponse {
  res_status : N;
  res_body : Json
}.

Definition invalid_url_response : Response :=
  mkResponse 400 (JObj [("error", JStr "Invalid URL")]).

Definition timeout_response : Response :=
  mkResponse 504 (JObj [("error", JStr "Timeout")]).

Definition failed_response (details : string) : Response :=
  mkResponse 500
    (JObj [("error", JStr "Scraping failed"); ("details", JStr details)]).

Definition ok_response (r : ScrapeResult) : Response :=
  mkResponse 200 (json_of_result r).

(** ** The engine as seen from the handler *)

(** The element handed to the page function of [$eval]: its [content]
    attribute (absent is [null]) and its text content. *)
Record Element : Type := mkElement {
  content_attr : option string;
  textContent : string
}.

(** How an awaited engine promise settles: fulfilled or rejected after
    [dur] milliseconds, or never. *)
Inductive Outcome (A : Type) : Type :=
| Resolves (dur : N) (a : A)
| Rejects (dur : N) (e : JsError)
| Hangs.
Arguments Resolves {A} dur a.
Arguments Rejects {A} dur e.
Arguments Hangs {A}.

(** One field per call site of [attemptScrape]; each site runs at most
    once in an attempt.  [close_try_out] is the [browser.close()] of the
    try block, [close_catch_out] the one of the catch block. *)
Record AttemptScript : Type := mkScript {
  launch_out : Outcome unit;
  newContext_out : Outcome unit;
  newPage_out : Outcome unit;
  goto_out : Outcome unit;
  title_out : Outcome string;
  meta_out : Outcome Element;
  h1_out : Outcome Element;
  close_try_out : Outcome unit;
  close_catch_out : Outcome unit
}.

(** The world of one request: the dynamic import, the script of each
    attempt, and which of the two promises [Promise.race] sees first when
    the work settles at the very instant the timer fires. *)
Record World : Type := mkWorld {
  import_out : Outcome unit;
  script : nat -> AttemptScript;
  timer_first_on_tie : bool
}.

Inductive WaitUntil : Type := NetworkIdle.

(** The engine calls, with the arguments the source passes. *)
Inductive Op : Type :=
| OpImport
| OpLaunch (headless : bool)
| OpNewContext (userAgent : option string)
| OpNewPage
| OpGoto (url : option string) (waitUntil : WaitUntil) (timeout : N)
| OpTitle
| OpEval (selector : string)
| OpClose.

(** A call as recorded: the attempt that issued it (0 outside any
    attempt), when it was issued, and when and how it settled. *)
Record Event : Type := mkEvent {
  ev_attempt : nat;
  ev_op : Op;
  ev_call : N;
  ev_settle : option N;
  ev_ok : bool
}.

Inductive Level : Type := LogLevel | WarnLevel | ErrorLevel.

(** Console lines, by the statement that prints them. *)
Inductive LogLine : Type :=
| LogStart (attempt : nat) (url : option string)
| LogSuccess (attempt : nat)
| LogAttemptFailed (attempt : nat) (msg : string)
| LogTimedOut
| LogScraperError (msg : string)
| LogRetryFailed (attempt : nat) (msg : string).

(** The state threaded through the handler.  [trace] holds the newest call
    first; [console] holds the lines printed, each with the time it was
    printed at. *)
Record State : Type := mkState {
  clock : N;
  trace : list Event;
  console : list (N * Level * LogLine)
}.

Definition start (t0 : N) : State := mkState t0 [] [].

(** The calls in the order they were issued. *)
Definition history (s : State) : list Event := rev (trace s).

(** ** Awaiting: state, exception and divergence *)

Inductive Step (A : Type) : Type :=
| Ret (a : A)
| Throw (e : JsError)
| Hang.
Arguments Ret {A} a.
Arguments Throw {A} e.
Arguments Hang {A}.

Definition M (A : Type) : Type := State -> Step A * State.

Definition ret {A} (a : A) : M A := fun s => (Ret a, s).

Definition throw {A} (e : JsError) : M A := fun s => (Throw e, s).

Definition bind {A B} (m : M A) (k : A -> M B) : M B :=
  fun s =>
    match m s with
    | (Ret a, s') => k a s'
    | (Throw e, s') => (Throw e, s')
    | (Hang, s') => (Hang, s')
    end.

(** [try { m } catch (err) { h err }]. *)
Definition try_catch {A} (m : M A) (h : JsError -> M A) : M A :=
  fun s =>
    match m s with
    | (Throw e, s') => h e s'
    | other => other
    end.

(** [promise.catch(() => null)]. *)
Definition catch_null {A} (m : M (option A)) : M (option A) :=
  try_catch m (fun _ => ret None).

Notation "x <- m ;; k" := (bind m (fun x => k))
  (at level 61, m at next level, right associativity).
Notation "m ;;; k" := (bind m (fun _ => k))
  (at level 61, right associativity).

Definition record (e : Event) (t : N) (s : State) : State :=
  mkState t (e :: trace s) (console s).

(** [await] of an engine call issued by attempt [n]. *)
Definition call {A} (n : nat) (op : Op) (o : Outcome A) : M A :=
  fun s =>
    let now := clock s in
    match o with
    | Resolves d a =>
        (Ret a, record (mkEvent n op now (Some (now + d)) true) (now + d) s)
    | Rejects d e =>
        (Throw e, record (mkEvent n op now (Some (now + d)) false) (now + d) s)
    | Hangs => (Hang, record (mkEvent n op now None false) now s)
    end.

Definition print (t : N) (lvl : Level) (l : LogLine) (s : State) : State :=
  mkState (clock s) (trace s) ((t, lvl, l) :: console s).

(** [console.log], [console.warn] and [console.error]. *)
Definition log (lvl : Level) (l : LogLine) : M unit :=
  fun s => (Ret tt, print (clock s) lvl l s).

(** ** Racing a promise against a timer

    The work settles at [settled] (when it settles at all), the timer
    rejects with [err] at [fires_at].  The race settles with whichever comes
    first, at that time; [timer_first] decides a tie. *)
Definition work_first (timer_first : bool) (fires_at settled : N) : bool :=
  (settled <? fires_at) || ((settled =? fires_at) && negb timer_first).

Definition race_with_timer {A} (timer_first : bool) (fires_at : N)
    (err : JsError) (work : Step A) (settled : N) : (A + JsError) * N :=
  match work with
  | Ret a =>
      if work_first timer_first fires_at settled then (inl a, settled)
      else (inr err, fires_at)
  | Throw e =>
      if work_first timer_first fires_at settled then (inr e, settled)
      else (inr err, fires_at)
  | Hang => (inr err, fires_at)
  end.

(** ** [attemptScrape] *)

(** The double quote character, for selectors that quote attribute values. *)
Definition dquote : string := String (ascii_of_nat 34) EmptyString.

Definition META_SELECTOR : string :=
  ("head > meta[name=" ++ dquote ++ "description" ++ dquote ++ "], " ++
   "head > meta[property=" ++ dquote ++ "og:description" ++ dquote ++ "]"
  )%string.

Definition H1_SELECTOR : string := "h1".

(** The page function [el => el.getAttribute('content')]. *)
Definition page_fn_content (el : Element) : option string := content_attr el.

(** The page function [el => el.textContent?.trim()]; the text content of
    an element is never null. *)
Definition page_fn_text (el : Element) : option string :=
  Some (trim (textContent el)).

(** [page.$eval(selector, fn)]: the engine finds the first match or
    rejects; [fn] is applied to the element found. *)
Definition eval_selector (n : nat) (selector : string) (o : Outcome Element)
    (fn : Element -> option string) : M (option string) :=
  el <- call n (OpEval selector) o ;; ret (fn el).

Section Attempt.

Variable w : World.
Variable url : option string.
Variable userAgent : option string.

(** The body of the try block of [attemptScrape]. *)
Definition attempt_body (attemptNumber : nat) : M ScrapeResult :=
  let sc := script w attemptNumber in
  call attemptNumber (OpGoto url NetworkIdle NAVIGATION_TIMEOUT_MS)
       (goto_out sc) ;;;
  t <- call attemptNumber OpTitle (title_out sc) ;;
  let title := or_null t in
  metaDescription <-
    catch_null (eval_selector attemptNumber META_SELECTOR (meta_out sc)
                              page_fn_content) ;;
  h1 <-
    catch_null (eval_selector attemptNumber H1_SELECTOR (h1_out sc)
                              page_fn_text) ;;
  call attemptNumber OpClose (close_try_out sc) ;;;
  log LogLevel (LogSuccess attemptNumber) ;;;
  ret (mkScrapeResult title metaDescription h1 200).

(** The catch block of [attemptScrape]. *)
Definition attempt_handler (attemptNumber : nat) (err : JsError)
    : M ScrapeResult :=
  let sc := script w attemptNumber in
  log WarnLevel (LogAttemptFailed attemptNumber (message err)) ;;;
  call attemptNumber OpClose (close_catch_out sc) ;;;
  throw err.

Definition attemptScrape (attemptNumber : nat) : M ScrapeResult :=
  let sc := script w attemptNumber in
  log LogLevel (LogStart attemptNumber url) ;;;
  call attemptNumber (OpLaunch true) (launch_out sc) ;;;
  call attemptNumber (OpNewContext (or_undefined userAgent))
       (newContext_out sc) ;;;
  call attemptNumber OpNewPage (newPage_out sc) ;;;
  try_catch (attempt_body attemptNumber) (attempt_handler attemptNumber).

(** ** The retry loop of [overallPromise]

    [retry_loop k attempt lastError] is the [for] loop with [k]
    iterations left, that is [k = MAX_ATTEMPTS + 1 - attempt], followed
    by the final [reject]. *)
Fixpoint retry_loop (k : nat) (attempt : nat) (lastError : option JsError)
    : M ScrapeResult :=
  match k with
  | O =>
      throw (match lastError with
             | Some e => e
             | None => Error "Unknown error"
             end)
  | S k' =>
      try_catch (attemptScrape attempt)
                (fun err => retry_loop k' (S attempt) (Some err))
  end.

Definition overallPromise : M ScrapeResult :=
  retry_loop MAX_ATTEMPTS 1%nat None.

(** ** [Promise.race([overallPromise, timeoutPromise])]

    Both promises start at [t0]; the timer rejects at
    [t0 + GLOBAL_TIMEOUT_MS] with [new Error('Timeout')]. *)
Definition timeout_error : JsError := Error "Timeout".

Definition deadline (t0 : N) : N := t0 + GLOBAL_TIMEOUT_MS.

Definition race (t0 : N) (work : Step ScrapeResult) (settled : N)
    : (ScrapeResult + JsError) * N :=
  race_with_timer (timer_first_on_tie w) (deadline t0) timeout_error
                  work settled.

(** The race as run by the handler from state [s]: the settled race, the
    time it settled at, and the state the work leaves behind. *)
Definition boundedWork (s : State) : (ScrapeResult + JsError) * N * State :=
  let (work, s') := overallPromise s in
  (race (clock s) work (clock s'), s').

End Attempt.

(** ** The handler *)

(** What becomes of a request: a response sent at some time, the handler's
    own promise rejecting before any response, or neither. *)
Inductive Reply : Type :=
| Responded (at_time : N) (r : Response)
| Escaped (e : JsError)
| Pending.

(** [err.message || 'Scraping failed']. *)
Definition message_or_default (err : JsError) : string :=
  if truthy (message err) then message err else "Scraping failed".

(** The catch block of the handler. *)
Definition respond_error (at_time : N) (err : JsError) (s : State)
    : Reply * State :=
  let message := message_or_default err in
  if includes "Timeout" message then
    (Responded at_time timeout_response,
     print at_time ErrorLevel LogTimedOut s)
  else
    (Responded at_time (failed_response message),
     print at_time ErrorLevel (LogScraperError message) s).

Section Handler.

(** [isValidHttpUrl] of [utils/validateUrl], which the route imports. *)
Variable isValidHttpUrl : option string -> bool.

Variable w : World.

Definition handler (req : Request) : Reply * State :=
  let url := q_url req in
  let userAgent := q_ua req in
  let s0 := start 0 in
  if negb (isValidHttpUrl url) then
    (Responded (clock s0) invalid_url_response, s0)
  else
    match call 0 OpImport (import_out w) s0 with
    | (Ret _, s1) =>
        match boundedWork w url userAgent s1 with
        | (inl result, at_time, s2) =>
            (Responded at_time (mkResponse 200 (json_of_result result)), s2)
        | (inr err, at_time, s2) => respond_error at_time err s2
        end
    | (Throw e, s1) => (Escaped e, s1)
    | (Hang, s1) => (Pending, s1)
    end.

End Handler.

(** ** The second route file

    The same route as the repository's other copy has it: no console
    output in [attemptScrape] or in the handler, one warning per failed
    attempt in the retry loop. *)
Module Plain.

Definition GLOBAL_TIMEOUT_MS : N := 20000.
Definition NAVIGATION_TIMEOUT_MS : N := 15000.
Definition MAX_ATTEMPTS : nat := 2.

Section Route.

Variable isValidHttpUrl : option string -> bool.
Variable w : World.

Section Work.

Variable url : option string.
Variable userAgent : option string.

Definition attemptScrape (attemptNumber : nat) : M ScrapeResult :=
  let sc := script w attemptNumber in
  call attemptNumber (OpLaunch true) (launch_out sc) ;;;
  call attemptNumber (OpNewContext (or_undefined userAgent))
       (newContext_out sc) ;;;
  call attemptNumber OpNewPage (newPage_out sc) ;;;
  try_catch
    (call attemptNumber (OpGoto url NetworkIdle NAVIGATION_TIMEOUT_MS)
          (goto_out sc) ;;;
     t <- call attemptNumber OpTitle (title_out sc) ;;
     let title := or_null t in
     metaDescription <-
       catch_null (eval_selector attemptNumber META_SELECTOR
                                 (meta_out sc) page_fn_content) ;;
     h1 <-
       catch_null (eval_selector attemptNumber H1_SELECTOR
                                 (h1_out sc) page_fn_text) ;;
     call attemptNumber OpClose (close_try_out sc) ;;;
     ret (mkScrapeResult title metaDescription h1 200))
    (fun err =>
       call attemptNumber OpClose (close_catch_out sc) ;;;
       throw err).

Fixpoint retry_loop (k : nat) (attempt : nat)
    (lastError : option JsError) : M ScrapeResult :=
  match k with
  | O =>
      throw (match lastError with
             | Some e => e
             | None => Error "Unknown error"
             end)
  | S k' =>
      try_catch (attemptScrape attempt)
        (fun err =>
           log WarnLevel (LogRetryFailed attempt (message err)) ;;;
           retry_loop k' (S attempt) (Some err))
  end.

Definition overallPromise : M ScrapeResult :=
  retry_loop MAX_ATTEMPTS 1%nat None.

Definition boundedWork (s : State)
    : (ScrapeResult + JsError) * N * State :=
  let (work, s') := overallPromise s in
  (race_with_timer (timer_first_on_tie w)
                   (clock s + GLOBAL_TIMEOUT_MS) (Error "Timeout")
                   work (clock s'),
   s').

End Work.

Definition handler (req : Request) : Reply * State :=
  let url := q_url req in
  let userAgent := q_ua req in
  let s0 := start 0 in
  if negb (isValidHttpUrl url) then
    (Responded (clock s0)
       (mkResponse 400 (JObj [("error", JStr "Invalid URL")])), s0)
  else
    match call 0 OpImport (import_out w) s0 with
    | (Ret _, s1) =>
        match boundedWork url userAgent s1 with
        | (inl result, at_time, s2) =>
            (Responded at_time (mkResponse 200 (json_of_result result)),
             s2)
        | (inr err, at_time, s2) =>
            let message :=
              if truthy (message err) then message err
              else "Scraping failed" in
            if includes "Timeout" message then
              (Responded at_time
                 (mkResponse 504 (JObj [("error", JStr "Timeout")])), s2)
            else
              (Responded at_time
                 (mkResponse 500
                    (JObj [("error", JStr "Scraping failed");
                           ("details", JStr message)])), s2)
        end
    | (Throw e, s1) => (Escaped e, s1)
    | (Hang, s1) => (Pending, s1)
    end.

End Route.

End Plain.

(** ** Reading the record of calls *)

Definition is_launch (e : Event) : bool :=
  match ev_op e with
  | OpLaunch _ => true
  | _ => false
  end.

Definition is_close (e : Event) : bool :=
  match ev_op e with
  | OpClose => true
  | _ => false
  end.

Definition by_attempt (n : nat) (e : Event) : bool := Nat.eqb (ev_attempt e) n.

(** Attempts started: every attempt issues one [chromium.launch]. *)
Definition launches (s : State) : nat := length (filter is_launch (trace s)).

(** Attempt [n] obtained a browser. *)
Definition launched (n : nat) (s : State) : bool :=
  existsb (fun e => by_attempt n e && is_launch e && ev_ok e) (trace s).

(** Attempt [n] called [browser.close()]. *)
Definition released (n : nat) (s : State) : bool :=
  existsb (fun e => by_attempt n e && is_close e) (trace s).

(** The calls, oldest first, follow one another without a gap from time
    [t] on: each is issued at the instant the one before it settled, and a
    call that never settles is the last one. *)
Fixpoint back_to_back (t : N) (calls : list Event) : Prop :=
  match calls with
  | [] => True
  | e :: rest =>
      ev_call e = t /\
      match ev_settle e with
      | Some t' => back_to_back t' rest
      | None => rest = []
      end
  end.

(** The time at which the last of the calls settled, starting from [t]. *)
Fixpoint end_of (t : N) (calls : list Event) : option N :=
  match calls with
  | [] => Some t
  | e :: rest =>
      match ev_settle e with
      | Some t' => end_of t' rest
      | None => None
      end
  end.

(** When a computation that ended with [r] in state [s] was through. *)
Definition through {A} (r : Step A) (s : State) : option N :=
  match r with
  | Hang => None
  | _ => Some (clock s)
  end.

(** [m], run by attempt [n], only adds calls of attempt [n], back to back
    from the current time to the time it is through. *)
Definition issues {A} (n : nat) (m : M A) : Prop :=
  forall s,
    exists calls,
      history (snd (m s)) = history s ++ calls /\
      Forall (fun e => ev_attempt e = n) calls /\
      back_to_back (clock s) calls /\
      end_of (clock s) calls = through (fst (m s)) (snd (m s)).

(** Two states that differ in the console only. *)
Definition same_calls (s1 s2 : State) : Prop :=
  clock s1 = clock s2 /\ trace s1 = trace s2.

(** Two computations that differ in what they print only. *)
Definition alike {A} (m1 m2 : M A) : Prop :=
  forall s1 s2,
    same_calls s1 s2 ->
    fst (m1 s1) = fst (m2 s2) /\ same_calls (snd (m1 s1)) (snd (m2 s2)).

Definition resolved {A} (o : Outcome A) : bool :=
  match o with
  | Resolves _ _ => true
  | _ => false
  end.

Definition rejected {A} (o : Outcome A) : bool :=
  match o with
  | Rejects _ _ => true
  | _ => false
  end.

Definition settles {A} (o : Outcome A) : bool := resolved o || rejected o.

(** Attempt [n] gets its browser, context and page and its navigation
    completes. *)
Definition navigates (sc : AttemptScript) : bool :=
  resolved (launch_out sc) && resolved (newContext_out sc) &&
  resolved (newPage_out sc) && resolved (goto_out sc).

(** What the result of the try block is made of, from the script. *)
Definition result_of (sc : AttemptScript) (t : string) : ScrapeResult :=
  mkScrapeResult
    (or_null t)
    (match meta_out sc with
     | Resolves _ el => page_fn_content el
     | _ => None
     end)
    (match h1_out sc with
     | Resolves _ el => page_fn_text el
     | _ => None
     end)
    200.

(** The bodies a response can carry, with their status codes. *)
Inductive response_shape : Response -> Prop :=
| shape_result (r : ScrapeResult) :
    status r = 200 -> response_shape (mkResponse 200 (json_of_result r))
| shape_invalid : response_shape invalid_url_response
| shape_timeout : response_shape timeout_response
| shape_failed (details : string) : response_shape (failed_response details).

(** ** Sample validator, pages and worlds *)

(** Modelled from the spec: [utils/validateUrl] is imported by the route
    but is not among the sources.  The spec asks that the url "must parse
    as an absolute URL with http or https scheme" and counts a missing url,
    an empty one, a non-URL string and a non-http(s) scheme as invalid.
    Here: the scheme prefix followed by a non-empty remainder. *)
Definition isValidHttpUrl_model (url : option string) : bool :=
  match url with
  | None => false
  | Some u =>
      (String.prefix "http://" u && (7 <? String.length u)%nat) ||
      (String.prefix "https://" u && (8 <? String.length u)%nat)
  end.

Definition example_request : Request :=
  mkRequest (Some "https://example.com") None.

(** A static page titled "Example Domain" with neither a description meta
    tag nor an h1: both [$eval] calls reject. *)
Definition no_match : JsError :=
  Error "page.$eval: Failed to find element matching selector".

Definition example_page : AttemptScript :=
  mkScript (Resolves 400 tt) (Resolves 30 tt) (Resolves 40 tt)
           (Resolves 800 tt) (Resolves 5 "Example Domain")
           (Rejects 5 no_match) (Rejects 5 no_match)
           (Resolves 60 tt) (Resolves 60 tt).

(** The same page without a title element: the engine reports "". *)
Definition untitled_page : AttemptScript :=
  mkScript (Resolves 400 tt) (Resolves 30 tt) (Resolves 40 tt)
           (Resolves 800 tt) (Resolves 5 "")
           (Resolves 5 (mkElement (Some "A page") " Hello "))
           (Resolves 5 (mkElement None "  Heading  "))
           (Resolves 60 tt) (Resolves 60 tt).

(** The host refuses the connection after 300 ms. *)
Definition refused_page : AttemptScript :=
  mkScript (Resolves 400 tt) (Resolves 30 tt) (Resolves 40 tt)
           (Rejects 300 (Error "page.goto: net::ERR_CONNECTION_REFUSED"))
           Hangs Hangs Hangs (Resolves 60 tt) (Resolves 60 tt).

(** The navigation runs into its own 15000 ms timeout. *)
Definition slow_page : AttemptScript :=
  mkScript (Resolves 400 tt) (Resolves 30 tt) (Resolves 40 tt)
           (Rejects NAVIGATION_TIMEOUT_MS
                    (Error "page.goto: Timeout 15000ms exceeded."))
           Hangs Hangs Hangs (Resolves 60 tt) (Resolves 60 tt).

(** The browser launches, then creating the context fails. *)
Definition no_context : AttemptScript :=
  mkScript (Resolves 400 tt)
           (Rejects 30 (Error "browser.newContext: Protocol error"))
           Hangs Hangs Hangs Hangs Hangs (Resolves 60 tt) (Resolves 60 tt).

(** The page loads, then the title query fails. *)
Definition title_error_page : AttemptScript :=
  mkScript (Resolves 400 tt) (Resolves 30 tt) (Resolves 40 tt)
           (Resolves 800 tt)
           (Rejects 5 (Error "page.title: Execution context was destroyed"))
           Hangs Hangs (Resolves 60 tt) (Resolves 60 tt).

(** The page loads, then the title query never settles. *)
Definition hung_page : AttemptScript :=
  mkScript (Resolves 400 tt) (Resolves 30 tt) (Resolves 40 tt)
           (Resolves 800 tt) Hangs Hangs Hangs Hangs Hangs.

Definition always (sc : AttemptScript) : World :=
  mkWorld (Resolves 150 tt) (fun _ => sc) false.

(** First attempt refused, second attempt timing out in navigation; the
    work is through 16360 ms after it started, before the global timer. *)
Definition refused_then_slow : World :=
  mkWorld (Resolves 150 tt)
          (fun n => if Nat.eqb n 1 then refused_page else slow_page) false.

Definition refused_then_example : World :=
  mkWorld (Resolves 150 tt)
          (fun n => if Nat.eqb n 1 then refused_page else example_page) false.

(** ** Further readings of the record and of strings *)

(** [m] only adds calls that satisfy [P]. *)
Definition emits (P : Event -> Prop) {A} (m : M A) : Prop :=
  forall s,
    exists calls,
      history (snd (m s)) = history s ++ calls /\ Forall P calls.

(** The arguments the route passes with a call, for a request with the
    given [url] and [ua]. *)
Definition args_ok (url ua : option string) (op : Op) : Prop :=
  match op with
  | OpLaunch headless => headless = true
  | OpNewContext userAgent =>
      userAgent = or_undefined ua /\ userAgent <> Some ""
  | OpGoto target _ timeout =>
      target = url /\ timeout = NAVIGATION_TIMEOUT_MS
  | OpEval selector => selector = META_SELECTOR \/ selector = H1_SELECTOR
  | _ => True
  end.

(** A call as the handler may issue it: the import outside any attempt,
    every other call in attempt 1 or 2 with the arguments of the route. *)
Definition call_ok (url ua : option string) (e : Event) : Prop :=
  match ev_op e with
  | OpImport => ev_attempt e = 0%nat
  | op => (ev_attempt e = 1%nat \/ ev_attempt e = 2%nat) /\ args_ok url ua op
  end.

(** The calls of attempt [n] other than the import. *)
Definition attempt_call (url ua : option string) (n : nat) (e : Event)
    : Prop :=
  ev_attempt e = n /\ ev_op e <> OpImport /\ args_ok url ua (ev_op e).

Definition rejection {A} (o : Outcome A) : list JsError :=
  match o with
  | Rejects _ e => [e]
  | _ => []
  end.

(** The errors an attempt can propagate: those of its calls other than the
    two selector queries. *)
Definition surfacing_errors (sc : AttemptScript) : list JsError :=
  rejection (launch_out sc) ++ rejection (newContext_out sc) ++
  rejection (newPage_out sc) ++ rejection (goto_out sc) ++
  rejection (title_out sc) ++ rejection (close_try_out sc) ++
  rejection (close_catch_out sc).

(** [needle] occurs in [s]. *)
Definition contains (needle s : string) : Prop :=
  exists before after, s = (before ++ needle ++ after)%string.



(** Calls of [browser.close()] so far. *)
Definition closes (s : State) : nat := length (filter is_close (trace s)).

Definition is_error_line (l : N * Level * LogLine) : bool :=
  match l with
  | (_, ErrorLevel, _) => true
  | _ => false
  end.

(** What [console.error] has printed so far. *)
Definition error_lines (s : State) : list (N * Level * LogLine) :=
  filter is_error_line (console s).


(** The navigation fails and the close of the catch block rejects. *)
Definition stubborn_browser : AttemptScript :=
  mkScript (Resolves 400 tt) (Resolves 30 tt) (Resolves 40 tt)
           (Rejects 300 (Error "page.goto: net::ERR_NAME_NOT_RESOLVED"))
           Hangs Hangs Hangs (Resolves 60 tt)
           (Rejects 60 (Error "browser.close: Target closed")).

(** The browser takes 10 s to launch and the navigation runs into its
    timeout: the attempt throws 25220 ms after it started. *)
Definition sluggish_page : AttemptScript :=
  mkScript (Resolves 10000 tt) (Resolves 30 tt) (Resolves 40 tt)
           (Rejects NAVIGATION_TIMEOUT_MS
                    (Error "page.goto: Timeout 15000ms exceeded."))
           Hangs Hangs Hangs (Resolves 60 tt) (Resolves 60 tt).


(** * Properties *)

(** ** The embedding on the sample pages *)

Example includes_navigation_timeout :
  includes "Timeout" "page.goto: Timeout 15000ms exceeded." = true.
Proof. reflexivity. Qed.

Example includes_is_case_sensitive :
  includes "Timeout" "net::ERR_CONNECTION_TIMED_OUT" = false.
Proof. reflexivity. Qed.

Example trim_heading : trim "  Heading  " = "Heading".
Proof. reflexivity. Qed.

(** The example page: one attempt, 200, both selector fields null. *)
Example example_domain_scenario :
  let run := handler isValidHttpUrl_model (always example_page)
                     example_request in
  fst run =
    Responded 1495
      (mkResponse 200
         (JObj [ ("title", JStr "Example Domain"); ("metaDescription", JNull);
                 ("h1", JNull); ("status", JNum 200) ])) /\
  launches (snd run) = 1%nat /\ released 1 (snd run) = true.
Proof. vm_compute. now repeat split. Qed.

(** A refused first attempt and a second one that succeeds: 200 with the
    data of the second attempt, two browsers launched and closed. *)
Example retry_then_success :
  let run := handler isValidHttpUrl_model refused_then_example
                     example_request in
  fst run =
    Responded 2325 (ok_response (result_of example_page "Example Domain")) /\
  launches (snd run) = 2%nat /\
  released 1 (snd run) = true /\ released 2 (snd run) = true.
Proof. vm_compute. now repeat split. Qed.

(** Both attempts refused: 500 with the message of the second error. *)
Example both_attempts_refused :
  fst (handler isValidHttpUrl_model (always refused_page) example_request) =
  Responded 1810 (failed_response "page.goto: net::ERR_CONNECTION_REFUSED").
Proof. vm_compute. reflexivity. Qed.

(** A call that never settles: 504 when the timer fires, 20000 ms after the
    import was through. *)
Example never_settles :
  fst (handler isValidHttpUrl_model (always hung_page) example_request) =
  Responded 20150 timeout_response.
Proof. vm_compute. reflexivity. Qed.

(** A failing import escapes the handler: no response is sent by it. *)
Example import_fails :
  fst (handler isValidHttpUrl_model
         (mkWorld (Rejects 5 (Error "Cannot find module 'playwright'"))
                  (fun _ => example_page) false)
         example_request) =
  Escaped (Error "Cannot find module 'playwright'").
Proof. vm_compute. reflexivity. Qed.

(** ** The content of a returned result *)

Ltac run_attempt :=
  unfold attemptScrape, attempt_body, attempt_handler, eval_selector,
    catch_null, try_catch, bind, call, log, ret, throw.

Ltac by_outcome o :=
  let d := fresh "d" in
  let x := fresh "x" in
  destruct o as [d x | d x | ]; cbn.

Lemma attempt_returns w url ua n s r s' :
  attemptScrape w url ua n s = (Ret r, s') ->
  exists d t,
    title_out (script w n) = Resolves d t /\
    r = result_of (script w n) t /\
    navigates (script w n) = true /\
    resolved (close_try_out (script w n)) = true.
Proof.
  unfold navigates, result_of. run_attempt. cbn.
  by_outcome (launch_out (script w n)); try discriminate.
  by_outcome (newContext_out (script w n)); try discriminate.
  by_outcome (newPage_out (script w n)); try discriminate.
  by_outcome (goto_out (script w n));
    [ | by_outcome (close_catch_out (script w n)); discriminate
      | discriminate ].
  by_outcome (title_out (script w n));
    [ | by_outcome (close_catch_out (script w n)); discriminate
      | discriminate ].
  by_outcome (meta_out (script w n)); try discriminate;
    by_outcome (h1_out (script w n)); try discriminate;
    (by_outcome (close_try_out (script w n));
     [ | by_outcome (close_catch_out (script w n)); discriminate
       | discriminate ]);
    intros H; inversion H; subst;
    do 2 eexists; repeat split; reflexivity.
Qed.

Lemma attempt_goes_through w url ua n s d t :
  navigates (script w n) = true ->
  title_out (script w n) = Resolves d t ->
  settles (meta_out (script w n)) = true ->
  settles (h1_out (script w n)) = true ->
  resolved (close_try_out (script w n)) = true ->
  exists s',
    attemptScrape w url ua n s = (Ret (result_of (script w n) t), s').
Proof.
  unfold navigates, settles, result_of. run_attempt. cbn.
  intros Hnav Ht Hm Hh Hc. rewrite Ht.
  destruct (launch_out (script w n)); try discriminate.
  destruct (newContext_out (script w n)); try discriminate.
  destruct (newPage_out (script w n)); try discriminate.
  destruct (goto_out (script w n)); try discriminate.
  destruct (close_try_out (script w n)); try discriminate.
  destruct (meta_out (script w n)); try discriminate;
    destruct (h1_out (script w n)); try discriminate;
    cbn; eauto.
Qed.

(** ** The retry loop *)

Lemma overall_unrolled w url ua s :
  overallPromise w url ua s =
  match attemptScrape w url ua 1 s with
  | (Throw _, s1) => attemptScrape w url ua 2 s1
  | done => done
  end.
Proof.
  unfold overallPromise, MAX_ATTEMPTS. cbn [retry_loop]. unfold try_catch.
  destruct (attemptScrape w url ua 1 s) as [[r | e1 | ] s1]; try reflexivity.
  destruct (attemptScrape w url ua 2 s1) as [[r | e2 | ] s2]; reflexivity.
Qed.

Lemma attempt_launches_once w url ua n s :
  launches (snd (attemptScrape w url ua n s)) = S (launches s).
Proof.
  unfold launches. run_attempt. cbn.
  by_outcome (launch_out (script w n)); try reflexivity.
  by_outcome (newContext_out (script w n)); try reflexivity.
  by_outcome (newPage_out (script w n)); try reflexivity.
  by_outcome (goto_out (script w n));
    [ | by_outcome (close_catch_out (script w n)); reflexivity
      | reflexivity ].
  by_outcome (title_out (script w n));
    [ | by_outcome (close_catch_out (script w n)); reflexivity
      | reflexivity ].
  by_outcome (meta_out (script w n)); try reflexivity;
    by_outcome (h1_out (script w n)); try reflexivity;
    (by_outcome (close_try_out (script w n));
     [ | by_outcome (close_catch_out (script w n)) | ]; reflexivity).
Qed.

(** C4: the retry loop starts at most two attempts; a first attempt that
    returns ends the loop with its result and in its final state, so no
    second attempt is started; when both attempts throw, the loop rejects
    with the error of the second attempt. *)
Theorem C4_two_attempts_last_error_wins w url ua s :
  (launches (snd (overallPromise w url ua s)) <= launches s + 2)%nat /\
  (forall r s1,
      attemptScrape w url ua 1 s = (Ret r, s1) ->
      overallPromise w url ua s = (Ret r, s1) /\
      launches s1 = S (launches s)) /\
  (forall e1 s1 e2 s2,
      attemptScrape w url ua 1 s = (Throw e1, s1) ->
      attemptScrape w url ua 2 s1 = (Throw e2, s2) ->
      overallPromise w url ua s = (Throw e2, s2)).
Proof.
  rewrite overall_unrolled.
  pose proof (attempt_launches_once w url ua 1 s) as L1.
  destruct (attemptScrape w url ua 1 s) as [[r | e1 | ] s1] eqn:A1;
    cbn [snd] in L1.
  - cbn [snd]. split; [lia | split].
    + intros r' s1' E. inversion E; subst. split; [reflexivity | exact L1].
    + intros; discriminate.
  - pose proof (attempt_launches_once w url ua 2 s1) as L2.
    split; [lia | split].
    + intros; discriminate.
    + intros e1' s1' e2 s2 E1 E2. inversion E1; subst. exact E2.
  - cbn [snd]. split; [lia | split]; intros; discriminate.
Qed.

(** ** Calls follow one another *)

Lemma history_record e t s : history (record e t s) = history s ++ [e].
Proof. reflexivity. Qed.

Lemma history_print t lvl l s : history (print t lvl l s) = history s.
Proof. reflexivity. Qed.

Lemma end_of_app a : forall t t' b,
  end_of t a = Some t' -> end_of t (a ++ b) = end_of t' b.
Proof.
  induction a as [| e a IH]; intros t t' b H; cbn in *.
  - now inversion H.
  - destruct (ev_settle e); [now apply IH | discriminate].
Qed.

Lemma back_to_back_app a : forall t t' b,
  back_to_back t a -> end_of t a = Some t' -> back_to_back t' b ->
  back_to_back t (a ++ b).
Proof.
  induction a as [| e a IH]; intros t t' b Ha He Hb; cbn in *.
  - inversion He; now subst.
  - destruct Ha as [Hc Ha]. split; [exact Hc | ].
    destruct (ev_settle e); [now apply IH with t' | discriminate].
Qed.

Lemma back_to_back_head t e rest : back_to_back t (e :: rest) -> ev_call e = t.
Proof. now intros [H _]. Qed.

Section Issues.

Variable n : nat.

Lemma issues_ret {A} (a : A) : issues n (ret a).
Proof.
  intros s. exists []. cbn. rewrite app_nil_r. now repeat split.
Qed.

Lemma issues_throw {A} e : issues n (@throw A e).
Proof.
  intros s. exists []. cbn. rewrite app_nil_r. now repeat split.
Qed.

Lemma issues_log lvl l : issues n (log lvl l).
Proof.
  intros s. exists []. unfold log. cbn [fst snd].
  rewrite history_print, app_nil_r. now repeat split.
Qed.

Lemma issues_call {A} op (o : Outcome A) : issues n (call n op o).
Proof.
  intros s. unfold call.
  destruct o as [d a | d e | ]; cbn [fst snd];
    (eexists [_]; rewrite history_record;
     split; [reflexivity | split; [now repeat constructor | ]]);
    cbn; now repeat split.
Qed.

Lemma issues_bind {A B} (m : M A) (k : A -> M B) :
  issues n m -> (forall a, issues n (k a)) -> issues n (bind m k).
Proof.
  intros Hm Hk s. destruct (Hm s) as (c1 & H1 & F1 & B1 & E1).
  unfold bind. destruct (m s) as [[a | e | ] s1]; cbn [fst snd] in *;
    try (exists c1; now repeat split).
  destruct (Hk a s1) as (c2 & H2 & F2 & B2 & E2).
  exists (c1 ++ c2). rewrite H2, H1, app_assoc.
  split; [reflexivity | split; [now apply Forall_app | split]].
  - now apply back_to_back_app with (clock s1).
  - rewrite <- E2. now apply end_of_app.
Qed.

Lemma issues_try_catch {A} (m : M A) (h : JsError -> M A) :
  issues n m -> (forall e, issues n (h e)) -> issues n (try_catch m h).
Proof.
  intros Hm Hh s. destruct (Hm s) as (c1 & H1 & F1 & B1 & E1).
  unfold try_catch. destruct (m s) as [[a | e | ] s1]; cbn [fst snd] in *;
    try (exists c1; now repeat split).
  destruct (Hh e s1) as (c2 & H2 & F2 & B2 & E2).
  exists (c1 ++ c2). rewrite H2, H1, app_assoc.
  split; [reflexivity | split; [now apply Forall_app | split]].
  - now apply back_to_back_app with (clock s1).
  - rewrite <- E2. now apply end_of_app.
Qed.

End Issues.

Create HintDb issues_db.
#[local] Hint Resolve issues_ret issues_throw issues_log issues_call
  issues_bind issues_try_catch : issues_db.

Lemma attempt_issues w url ua n : issues n (attemptScrape w url ua n).
Proof.
  unfold attemptScrape, attempt_body, attempt_handler, catch_null,
    eval_selector.
  repeat match goal with
         | |- issues _ (bind _ _) => apply issues_bind
         | |- issues _ (try_catch _ _) => apply issues_try_catch
         | |- forall _, issues _ _ => intro; cbv beta
         end;
    auto with issues_db.
Qed.

(** C8: within one request the attempts run one after the other.  The calls
    of the retry loop are those of attempt 1 followed by those of attempt 2;
    attempt 2 issues a call only if attempt 1 has thrown, its first call is
    issued at the very instant attempt 1 threw, and all calls follow one
    another without a gap, so nothing is waited for between the attempts. *)
Theorem C8_attempts_run_in_sequence w url ua s :
  exists first second,
    history (snd (attemptScrape w url ua 1 s)) = history s ++ first /\
    history (snd (overallPromise w url ua s)) = history s ++ first ++ second /\
    Forall (fun e => ev_attempt e = 1%nat) first /\
    Forall (fun e => ev_attempt e = 2%nat) second /\
    back_to_back (clock s) (first ++ second) /\
    (forall e rest,
        second = e :: rest ->
        (exists err, fst (attemptScrape w url ua 1 s) = Throw err) /\
        ev_call e = clock (snd (attemptScrape w url ua 1 s))).
Proof.
  rewrite overall_unrolled.
  destruct (attempt_issues w url ua 1 s) as (c1 & H1 & F1 & B1 & E1).
  destruct (attemptScrape w url ua 1 s) as [[r | e1 | ] s1];
    cbn [fst snd] in *.
  - exists c1, []. rewrite !app_nil_r.
    repeat split; try assumption; try constructor; discriminate.
  - destruct (attempt_issues w url ua 2 s1) as (c2 & H2 & F2 & B2 & E2).
    exists c1, c2. rewrite H2, H1, app_assoc.
    split; [reflexivity | split; [reflexivity | ]].
    split; [assumption | split; [assumption | split]].
    + now apply back_to_back_app with (clock s1).
    + intros e rest ->. split; [now exists e1 | ].
      now apply back_to_back_head with rest.
  - exists c1, []. rewrite !app_nil_r.
    repeat split; try assumption; try constructor; discriminate.
Qed.

(** ** The two route files *)

Lemma same_calls_refl s : same_calls s s.
Proof. now split. Qed.

Lemma same_calls_print_l t lvl l s1 s2 :
  same_calls s1 s2 -> same_calls (print t lvl l s1) s2.
Proof. intros [C T]. now split. Qed.

Lemma same_calls_print_r t lvl l s1 s2 :
  same_calls s1 s2 -> same_calls s1 (print t lvl l s2).
Proof. intros [C T]. now split. Qed.

Section Alike.

Lemma alike_ret {A} (a : A) : alike (ret a) (ret a).
Proof. intros s1 s2 H. now split. Qed.

Lemma alike_throw {A} e : alike (@throw A e) (throw e).
Proof. intros s1 s2 H. now split. Qed.

Lemma alike_call {A} n op (o : Outcome A) : alike (call n op o) (call n op o).
Proof.
  intros s1 s2 [C T]. unfold call, record, same_calls.
  destruct o; cbn; rewrite C, T; now repeat split.
Qed.

Lemma alike_bind {A B} (m1 m2 : M A) (k1 k2 : A -> M B) :
  alike m1 m2 -> (forall a, alike (k1 a) (k2 a)) ->
  alike (bind m1 k1) (bind m2 k2).
Proof.
  intros Hm Hk s1 s2 H. destruct (Hm s1 s2 H) as [R S]. unfold bind.
  destruct (m1 s1) as [r1 s1'], (m2 s2) as [r2 s2']. cbn in R, S. subst r2.
  destruct r1; [now apply Hk | now split | now split].
Qed.

Lemma alike_try_catch {A} (m1 m2 : M A) (h1 h2 : JsError -> M A) :
  alike m1 m2 -> (forall e, alike (h1 e) (h2 e)) ->
  alike (try_catch m1 h1) (try_catch m2 h2).
Proof.
  intros Hm Hh s1 s2 H. destruct (Hm s1 s2 H) as [R S]. unfold try_catch.
  destruct (m1 s1) as [r1 s1'], (m2 s2) as [r2 s2']. cbn in R, S. subst r2.
  destruct r1; [now split | now apply Hh | now split].
Qed.

(** Printing on one side only. *)
Lemma alike_log_l {A} lvl l (m1 m2 : M A) :
  alike m1 m2 -> alike (log lvl l ;;; m1) m2.
Proof.
  intros Hm s1 s2 H. unfold bind, log.
  apply Hm. now apply same_calls_print_l.
Qed.

Lemma alike_log_r {A} lvl l (m1 m2 : M A) :
  alike m1 m2 -> alike m1 (log lvl l ;;; m2).
Proof.
  intros Hm s1 s2 H. unfold bind, log.
  apply Hm. now apply same_calls_print_r.
Qed.

End Alike.

Ltac alike_step :=
  match goal with
  | |- alike (log _ _ ;;; _) _ => apply alike_log_l
  | |- alike _ (log _ _ ;;; _) => apply alike_log_r
  | |- alike (bind _ _) (bind _ _) => apply alike_bind
  | |- alike (try_catch _ _) (try_catch _ _) => apply alike_try_catch
  | |- alike (call _ _ _) (call _ _ _) => apply alike_call
  | |- alike (ret _) (ret _) => apply alike_ret
  | |- alike (throw _) (throw _) => apply alike_throw
  | |- forall _, alike _ _ => intro; cbv beta
  end.

Lemma attempt_alike w url ua n :
  alike (attemptScrape w url ua n) (Plain.attemptScrape w url ua n).
Proof.
  unfold attemptScrape, Plain.attemptScrape, attempt_body, attempt_handler,
    catch_null, eval_selector.
  change Plain.NAVIGATION_TIMEOUT_MS with NAVIGATION_TIMEOUT_MS.
  repeat alike_step.
Qed.

Lemma retry_alike w url ua k : forall attempt lastError,
  alike (retry_loop w url ua k attempt lastError)
        (Plain.retry_loop w url ua k attempt lastError).
Proof.
  induction k as [| k IH]; intros attempt lastError;
    cbn [retry_loop Plain.retry_loop].
  - apply alike_throw.
  - apply alike_try_catch; [apply attempt_alike | ].
    intros err. apply alike_log_r. apply IH.
Qed.

Lemma boundedWork_alike w url ua s1 s2 :
  same_calls s1 s2 ->
  fst (boundedWork w url ua s1) = fst (Plain.boundedWork w url ua s2) /\
  same_calls (snd (boundedWork w url ua s1))
             (snd (Plain.boundedWork w url ua s2)).
Proof.
  intros H. unfold boundedWork, Plain.boundedWork, race, deadline,
    overallPromise, Plain.overallPromise, timeout_error.
  change Plain.GLOBAL_TIMEOUT_MS with GLOBAL_TIMEOUT_MS.
  change Plain.MAX_ATTEMPTS with MAX_ATTEMPTS.
  destruct (retry_alike w url ua MAX_ATTEMPTS 1 None s1 s2 H) as [R S].
  destruct (retry_loop w url ua MAX_ATTEMPTS 1 None s1) as [r1 s1'].
  destruct (Plain.retry_loop w url ua MAX_ATTEMPTS 1 None s2) as [r2 s2'].
  cbn [fst snd] in *. subst r2. destruct H as [C _], S as [C' T'].
  rewrite C, C'. now repeat split.
Qed.

(** C9: the two route files answer alike.  For every validator, world and
    request the two handlers give the same reply (the same status code and
    JSON body, at the same time, or no response in both) and leave the same
    record of engine calls; only their console output differs. *)
Theorem C9_route_files_agree isValidHttpUrl w req :
  fst (handler isValidHttpUrl w req) =
  fst (Plain.handler isValidHttpUrl w req) /\
  same_calls (snd (handler isValidHttpUrl w req))
             (snd (Plain.handler isValidHttpUrl w req)).
Proof.
  unfold handler, Plain.handler.
  destruct (negb (isValidHttpUrl (q_url req))).
  - split; [reflexivity | apply same_calls_refl].
  - destruct (call 0 OpImport (import_out w) (start 0)) as [[[] | e | ] s1];
      try (split; [reflexivity | apply same_calls_refl]).
    destruct (boundedWork_alike w (q_url req) (q_ua req) s1 s1
                (same_calls_refl s1)) as [R S].
    destruct (boundedWork w (q_url req) (q_ua req) s1) as [[o1 t1] s2].
    destruct (Plain.boundedWork w (q_url req) (q_ua req) s1) as [[o2 t2] s2'].
    cbn [fst snd] in R, S. inversion R; subst o2 t2.
    destruct o1 as [result | err]; [now split | ].
    unfold respond_error, message_or_default.
    destruct (includes "Timeout"
                (if truthy (message err) then message err
                 else "Scraping failed"));
      cbn [fst snd]; (split; [reflexivity | now apply same_calls_print_l]).
Qed.

(** ** The attempt and its browser *)

Lemma attempt_releases_after_page w url ua n s :
  resolved (launch_out (script w n)) = true ->
  resolved (newContext_out (script w n)) = true ->
  resolved (newPage_out (script w n)) = true ->
  fst (attemptScrape w url ua n s) <> Hang ->
  released n (snd (attemptScrape w url ua n s)) = true.
Proof.
  unfold released, by_attempt. run_attempt. cbn.
  by_outcome (launch_out (script w n)); try discriminate.
  by_outcome (newContext_out (script w n)); try discriminate.
  by_outcome (newPage_out (script w n)); try discriminate.
  intros _ _ _.
  by_outcome (goto_out (script w n));
    [ | by_outcome (close_catch_out (script w n));
        rewrite ?Nat.eqb_refl; cbn; congruence
      | congruence ].
  by_outcome (title_out (script w n));
    [ | by_outcome (close_catch_out (script w n));
        rewrite ?Nat.eqb_refl; cbn; congruence
      | congruence ].
  by_outcome (meta_out (script w n)); try congruence;
    by_outcome (h1_out (script w n)); try congruence;
    (by_outcome (close_try_out (script w n));
     [ | by_outcome (close_catch_out (script w n)) | ];
     rewrite ?Nat.eqb_refl; cbn; congruence).
Qed.

(** C2: the claim asks that the browser is closed on every exit path of an
    attempt, also when acquiring the context fails.  Here the launch
    succeeds and [newContext] rejects: the attempt propagates that error,
    it holds a launched browser and it never calls [browser.close()]. *)
Theorem C2_context_failure_leaves_browser_open :
  let run :=
    attemptScrape (always no_context) (Some "https://example.com") None 1
                  (start 0) in
  fst run = Throw (Error "browser.newContext: Protocol error") /\
  launched 1 (snd run) = true /\
  released 1 (snd run) = false.
Proof. vm_compute. now repeat split. Qed.

(** ** The title *)

(** C3, as the claim states it, fails here: the navigation completes, the
    title query rejects, and the attempt propagates that error. *)
Lemma C3_title_error_fails_the_attempt :
  navigates title_error_page = true /\
  rejected (title_out title_error_page) = true /\
  fst (attemptScrape (always title_error_page) (Some "https://example.com")
                     None 1 (start 0))
  = Throw (Error "page.title: Execution context was destroyed").
Proof. vm_compute. now repeat split. Qed.

Lemma attempt_throws_after_title w url ua n s d t e s' :
  navigates (script w n) = true ->
  title_out (script w n) = Resolves d t ->
  attemptScrape w url ua n s = (Throw e, s') ->
  rejected (close_try_out (script w n)) = true.
Proof.
  unfold navigates. run_attempt. cbn. intros Hnav Ht. rewrite Ht.
  destruct (launch_out (script w n)); try discriminate.
  destruct (newContext_out (script w n)); try discriminate.
  destruct (newPage_out (script w n)); try discriminate.
  destruct (goto_out (script w n)); try discriminate.
  cbn.
  by_outcome (meta_out (script w n)); try discriminate;
    by_outcome (h1_out (script w n)); try discriminate;
    (by_outcome (close_try_out (script w n)); [discriminate | | discriminate]);
    reflexivity.
Qed.

(** C3 (amended): for an attempt that completes navigation and whose title
    query returns, the title never fails the attempt.  A returned result
    carries the title, null when the title is absent (the empty string);
    the attempt throws only if closing the browser in the try block
    rejected; and it does return once the two selector queries settle and
    that close resolves. *)
Theorem C3_title_that_returns_never_fails w url ua n s d t :
  navigates (script w n) = true ->
  title_out (script w n) = Resolves d t ->
  (forall r s',
      attemptScrape w url ua n s = (Ret r, s') ->
      title r = or_null t /\ (t = "" -> title r = None)) /\
  (forall e s',
      attemptScrape w url ua n s = (Throw e, s') ->
      rejected (close_try_out (script w n)) = true) /\
  (settles (meta_out (script w n)) = true ->
   settles (h1_out (script w n)) = true ->
   resolved (close_try_out (script w n)) = true ->
   exists r s', attemptScrape w url ua n s = (Ret r, s')).
Proof.
  intros Hnav Ht. split; [ | split].
  - intros r s' H. apply attempt_returns in H.
    destruct H as (d' & t' & Ht' & -> & _). rewrite Ht in Ht'.
    inversion Ht'; subst. split; [reflexivity | now intros ->].
  - intros e s' H. eapply attempt_throws_after_title; eauto.
  - intros Hm Hh Hc.
    destruct (attempt_goes_through w url ua n s d t Hnav Ht Hm Hh Hc)
      as [s' H].
    eauto.
Qed.

Lemma C3_title_that_returns_never_fails_witness :
  exists r s',
    attemptScrape (always untitled_page) (Some "https://example.com") None 1
                  (start 0) = (Ret r, s') /\
    title r = None.
Proof.
  destruct (C3_title_that_returns_never_fails
              (always untitled_page) (Some "https://example.com") None 1
              (start 0) 5 "" eq_refl eq_refl) as (Hret & _ & Hgo).
  destruct (Hgo eq_refl eq_refl eq_refl) as (r & s' & H).
  exists r, s'. split; [exact H | ].
  now apply (Hret r s' H).
Defined.

(** C10: when the engine reports the empty string as the page title, a
    returned result has [title] null, and so has the JSON body made of it;
    the empty string is the only falsy title there is. *)
Theorem C10_empty_title_becomes_null w url ua n s d r s' :
  title_out (script w n) = Resolves d "" ->
  attemptScrape w url ua n s = (Ret r, s') ->
  title r = None /\
  member "title" (json_of_result r) = Some JNull /\
  (forall t, truthy t = false -> t = "" /\ or_null t = None).
Proof.
  intros Ht H. apply attempt_returns in H.
  destruct H as (d' & t' & Ht' & -> & _). rewrite Ht in Ht'.
  inversion Ht'; subst. repeat split.
  - now destruct t.
  - now destruct t.
Qed.

Lemma C10_empty_title_becomes_null_witness :
  title (result_of untitled_page "") = None /\
  member "title" (json_of_result (result_of untitled_page "")) = Some JNull.
Proof.
  pose (run := attemptScrape (always untitled_page)
                 (Some "https://example.com") None 1 (start 0)).
  assert (H : run = (Ret (result_of untitled_page ""), snd run))
    by (vm_compute; reflexivity).
  destruct (C10_empty_title_becomes_null
              (always untitled_page) (Some "https://example.com") None 1
              (start 0) 5 _ _ eq_refl H) as (T & J & _).
  exact (conj T J).
Defined.

(** ** The race and the response *)

Lemma race_inl {A} tf fires err (work : Step A) settled a t :
  race_with_timer tf fires err work settled = (inl a, t) ->
  work = Ret a /\ t = settled /\ work_first tf fires settled = true.
Proof.
  unfold race_with_timer.
  destruct work; [ | | discriminate];
    destruct (work_first tf fires settled); intros H; inversion H; subst;
    now repeat split.
Qed.

Lemma race_inr {A} tf fires err (work : Step A) settled e t :
  race_with_timer tf fires err work settled = (inr e, t) ->
  (work = Throw e /\ t = settled /\ work_first tf fires settled = true) \/
  (e = err /\ t = fires).
Proof.
  unfold race_with_timer.
  destruct work; [ | | intros H; inversion H; now right];
    destruct (work_first tf fires settled); intros H; inversion H; subst;
    auto.
Qed.

Lemma overall_returns w url ua s r s' :
  overallPromise w url ua s = (Ret r, s') ->
  exists n s0, attemptScrape w url ua n s0 = (Ret r, s').
Proof.
  rewrite overall_unrolled.
  destruct (attemptScrape w url ua 1 s) as [[r1 | e1 | ] s1] eqn:A1;
    intros H; try discriminate.
  - inversion H; subst. now exists 1%nat, s.
  - now exists 2%nat, s1.
Qed.

Lemma boundedWork_inl w url ua s result t s' :
  boundedWork w url ua s = (inl result, t, s') ->
  overallPromise w url ua s = (Ret result, s') /\ t = clock s'.
Proof.
  unfold boundedWork, race.
  destruct (overallPromise w url ua s) as [work s1].
  intros H. inversion H; subst.
  match goal with
  | E : race_with_timer _ _ _ _ _ = _ |- _ =>
      apply race_inl in E; destruct E as (-> & -> & _)
  end.
  now split.
Qed.

Lemma respond_error_shape t err s t' resp s' :
  respond_error t err s = (Responded t' resp, s') ->
  resp = timeout_response \/ exists details, resp = failed_response details.
Proof.
  unfold respond_error.
  destruct (includes "Timeout" (message_or_default err));
    intros H; inversion H; subst; eauto.
Qed.

(** A response with status 200 carries the result returned by an attempt. *)
Lemma handler_200 isValidHttpUrl w req t resp s :
  handler isValidHttpUrl w req = (Responded t resp, s) ->
  res_status resp = 200 ->
  exists result n s0,
    resp = ok_response result /\
    attemptScrape w (q_url req) (q_ua req) n s0 = (Ret result, s).
Proof.
  unfold handler.
  destruct (negb (isValidHttpUrl (q_url req))).
  - intros H; inversion H; subst. discriminate.
  - destruct (call 0 OpImport (import_out w) (start 0)) as [[[] | e | ] s1];
      try discriminate.
    destruct (boundedWork w (q_url req) (q_ua req) s1)
      as [[[result | err] t1] s2] eqn:B.
    + intros H _. inversion H; subst.
      apply boundedWork_inl in B. destruct B as [B _].
      apply overall_returns in B. destruct B as (n & s0 & B).
      now exists result, n, s0.
    + intros H S. apply respond_error_shape in H.
      destruct H as [-> | [details ->]]; discriminate.
Qed.

(** C5: a request whose url the validator rejects is answered 400 with
    [{ "error": "Invalid URL" }] at once, in the initial state: the engine
    is not imported, no browser is launched, nothing is printed. *)
Theorem C5_invalid_url_is_400_before_any_browser_work isValidHttpUrl w req :
  isValidHttpUrl (q_url req) = false ->
  handler isValidHttpUrl w req = (Responded 0 invalid_url_response, start 0) /\
  res_status invalid_url_response = 400 /\
  res_body invalid_url_response = JObj [("error", JStr "Invalid URL")] /\
  history (snd (handler isValidHttpUrl w req)) = [] /\
  launches (snd (handler isValidHttpUrl w req)) = 0%nat.
Proof.
  intros H. unfold handler. rewrite H. cbn. now repeat split.
Qed.

Lemma C5_invalid_url_is_400_before_any_browser_work_witness :
  isValidHttpUrl_model None = false /\
  isValidHttpUrl_model (Some "") = false /\
  isValidHttpUrl_model (Some "not a url") = false /\
  isValidHttpUrl_model (Some "ftp://example.com/file") = false /\
  handler isValidHttpUrl_model (always example_page)
          (mkRequest (Some "ftp://example.com/file") (Some "bot"))
  = (Responded 0 invalid_url_response, start 0) /\
  handler isValidHttpUrl_model (always example_page) (mkRequest None None)
  = (Responded 0 invalid_url_response, start 0).
Proof.
  do 4 (split; [reflexivity | ]). split.
  - exact (proj1 (C5_invalid_url_is_400_before_any_browser_work
                    isValidHttpUrl_model (always example_page)
                    (mkRequest (Some "ftp://example.com/file") (Some "bot"))
                    eq_refl)).
  - exact (proj1 (C5_invalid_url_is_400_before_any_browser_work
                    isValidHttpUrl_model (always example_page)
                    (mkRequest None None) eq_refl)).
Defined.

(** How the handler answers a settled race that is a failure. *)
Lemma failure_mapping isValidHttpUrl w req s1 err t s2 :
  isValidHttpUrl (q_url req) = true ->
  call 0 OpImport (import_out w) (start 0) = (Ret tt, s1) ->
  boundedWork w (q_url req) (q_ua req) s1 = (inr err, t, s2) ->
  fst (handler isValidHttpUrl w req) =
  Responded t (if includes "Timeout" (message_or_default err)
               then timeout_response
               else failed_response (message_or_default err)).
Proof.
  intros V I B. unfold handler. rewrite V, I, B. cbn [negb].
  unfold respond_error.
  now destruct (includes "Timeout" (message_or_default err)).
Qed.

(** When the timer wins the race the answer is 504, sent at the deadline. *)
Lemma deadline_is_504 isValidHttpUrl w req s1 :
  isValidHttpUrl (q_url req) = true ->
  call 0 OpImport (import_out w) (start 0) = (Ret tt, s1) ->
  work_first (timer_first_on_tie w) (deadline (clock s1))
             (clock (snd (overallPromise w (q_url req) (q_ua req) s1)))
  = false ->
  fst (handler isValidHttpUrl w req) =
  Responded (deadline (clock s1)) timeout_response.
Proof.
  intros V I F.
  rewrite failure_mapping with (s1 := s1) (err := timeout_error)
    (t := deadline (clock s1))
    (s2 := snd (overallPromise w (q_url req) (q_ua req) s1));
    [reflexivity | exact V | exact I | ].
  unfold boundedWork, race, race_with_timer.
  destruct (overallPromise w (q_url req) (q_ua req) s1) as [[r | e | ] s2];
    cbn [snd] in *; rewrite ?F; reflexivity.
Qed.

(** C1: the claim asks for 500 with the underlying message for every
    failure that is not the global deadline, a per-attempt navigation
    timeout included.  Here the first attempt is refused, the second runs
    into the navigation timeout, and the work rejects with that error 16360
    ms after it started, before the global timer: the handler answers 504
    with [{ "error": "Timeout" }]. *)
Theorem C1_navigation_timeout_is_answered_504 :
  let s1 := snd (call 0 OpImport (import_out refused_then_slow) (start 0)) in
  let work :=
    overallPromise refused_then_slow (q_url example_request)
                   (q_ua example_request) s1 in
  fst work = Throw (Error "page.goto: Timeout 15000ms exceeded.") /\
  (clock (snd work) <? deadline (clock s1)) = true /\
  fst (boundedWork refused_then_slow (q_url example_request)
                   (q_ua example_request) s1)
  = (inr (Error "page.goto: Timeout 15000ms exceeded."), clock (snd work)) /\
  fst (handler isValidHttpUrl_model refused_then_slow example_request)
  = Responded (clock (snd work)) timeout_response.
Proof. vm_compute. now repeat split. Qed.

(** C7: when the race settles with a result the handler responds 200 with
    that result as the body, all four members present and [status] 200;
    and whatever the handler responds is a full result with status 200 or
    one of the three error bodies with its own status. *)
Theorem C7_success_is_200_with_the_full_result isValidHttpUrl w req :
  (forall s1 result t s2,
      isValidHttpUrl (q_url req) = true ->
      call 0 OpImport (import_out w) (start 0) = (Ret tt, s1) ->
      boundedWork w (q_url req) (q_ua req) s1 = (inl result, t, s2) ->
      handler isValidHttpUrl w req = (Responded t (ok_response result), s2) /\
      res_status (ok_response result) = 200 /\
      res_body (ok_response result) =
        JObj [ ("title", json_of_nullable (title result));
               ("metaDescription", json_of_nullable (metaDescription result));
               ("h1", json_of_nullable (h1 result));
               ("status", JNum 200) ]) /\
  (forall t resp s,
      handler isValidHttpUrl w req = (Responded t resp, s) ->
      response_shape resp).
Proof.
  split.
  - intros s1 result t s2 V I B.
    assert (S : status result = 200).
    { apply boundedWork_inl in B. destruct B as [B _].
      apply overall_returns in B. destruct B as (n & s0 & B).
      apply attempt_returns in B. now destruct B as (d & t' & _ & -> & _). }
    split; [ | split; [reflexivity | ]].
    + unfold handler. now rewrite V, I, B.
    + unfold ok_response, json_of_result. cbn [res_body]. now rewrite S.
  - intros t resp s. unfold handler.
    destruct (negb (isValidHttpUrl (q_url req))).
    + intros H; inversion H; subst. constructor.
    + destruct (call 0 OpImport (import_out w) (start 0)) as [[[] | e | ] s1];
        try discriminate.
      destruct (boundedWork w (q_url req) (q_ua req) s1)
        as [[[result | err] t1] s2] eqn:B.
      * intros H; inversion H; subst.
        apply boundedWork_inl in B. destruct B as [B _].
        apply overall_returns in B. destruct B as (n & s0 & B).
        apply attempt_returns in B. destruct B as (d & t' & _ & -> & _).
        now constructor.
      * intros H. apply respond_error_shape in H.
        destruct H as [-> | [details ->]]; constructor.
Qed.

Lemma C7_success_is_200_with_the_full_result_witness :
  handler isValidHttpUrl_model (always example_page) example_request =
  (Responded 1495
     (ok_response (mkScrapeResult (Some "Example Domain") None None 200)),
   snd (handler isValidHttpUrl_model (always example_page) example_request)).
Proof.
  pose (s1 := snd (call 0 OpImport (import_out (always example_page))
                        (start 0))).
  refine (proj1 (proj1 (C7_success_is_200_with_the_full_result
                          isValidHttpUrl_model (always example_page)
                          example_request)
                       s1 _ _ _ eq_refl eq_refl _)).
  vm_compute. reflexivity.
Defined.

(** ** The selector queries *)

Lemma result_of_rejected sc t :
  (rejected (meta_out sc) = true -> metaDescription (result_of sc t) = None) /\
  (rejected (h1_out sc) = true -> h1 (result_of sc t) = None).
Proof.
  unfold result_of; cbn.
  destruct (meta_out sc), (h1_out sc); cbn; split; intros; congruence.
Qed.

(** C6: for an attempt that completes navigation, a description query or an
    h1 query that rejects (no such element, or an error of the query) gives
    null for that field and does not fail the attempt: with the title
    returned and the browser closed, the attempt returns.  And a response
    with status 200 for a page on which both queries reject carries
    [metaDescription] null and [h1] null. *)
Theorem C6_missing_description_or_h1_is_null :
  (forall w url ua n s d t,
      navigates (script w n) = true ->
      title_out (script w n) = Resolves d t ->
      resolved (close_try_out (script w n)) = true ->
      settles (meta_out (script w n)) = true ->
      settles (h1_out (script w n)) = true ->
      exists r s',
        attemptScrape w url ua n s = (Ret r, s') /\
        (rejected (meta_out (script w n)) = true ->
         metaDescription r = None) /\
        (rejected (h1_out (script w n)) = true -> h1 r = None)) /\
  (forall isValidHttpUrl w req t resp s,
      (forall n, rejected (meta_out (script w n)) = true /\
                 rejected (h1_out (script w n)) = true) ->
      handler isValidHttpUrl w req = (Responded t resp, s) ->
      res_status resp = 200 ->
      member "metaDescription" (res_body resp) = Some JNull /\
      member "h1" (res_body resp) = Some JNull).
Proof.
  split.
  - intros w url ua n s d t Hnav Ht Hc Hm Hh.
    destruct (attempt_goes_through w url ua n s d t Hnav Ht Hm Hh Hc)
      as [s' H].
    exists (result_of (script w n) t), s'.
    split; [exact H | apply result_of_rejected].
  - intros isValidHttpUrl w req t resp s Hrej H S.
    destruct (handler_200 isValidHttpUrl w req t resp s H S)
      as (result & n & s0 & -> & A).
    apply attempt_returns in A. destruct A as (d & t' & _ & -> & _).
    destruct (Hrej n) as [Hm Hh].
    destruct (result_of_rejected (script w n) t') as [Rm Rh].
    unfold ok_response, json_of_result. cbn [res_body].
    rewrite (Rm Hm), (Rh Hh). now split.
Qed.

Lemma C6_missing_description_or_h1_is_null_witness :
  (exists r s',
      attemptScrape (always example_page) (Some "https://example.com") None 1
                    (start 150) = (Ret r, s') /\
      metaDescription r = None /\ h1 r = None) /\
  member "metaDescription"
         (res_body (ok_response (result_of example_page "Example Domain")))
  = Some JNull /\
  member "h1"
         (res_body (ok_response (result_of example_page "Example Domain")))
  = Some JNull.
Proof.
  destruct C6_missing_description_or_h1_is_null as [Hattempt Hhandler].
  split.
  - destruct (Hattempt (always example_page) (Some "https://example.com")
                       None 1%nat (start 150) 5 "Example Domain"
                       eq_refl eq_refl eq_refl eq_refl eq_refl)
      as (r & s' & H & Hm & Hh).
    exists r, s'.
    split; [exact H | split; [exact (Hm eq_refl) | exact (Hh eq_refl)]].
  - eapply (Hhandler isValidHttpUrl_model (always example_page)
                     example_request 1495).
    + intros n. split; reflexivity.
    + vm_compute. reflexivity.
    + reflexivity.
Defined.

(** * Further properties of the route *)

(** ** What is passed to the engine *)

Lemma emits_ret P {A} (a : A) : emits P (ret a).
Proof. intros s. exists []. cbn. now rewrite app_nil_r. Qed.

Lemma emits_throw P {A} e : emits P (@throw A e).
Proof. intros s. exists []. cbn. now rewrite app_nil_r. Qed.

Lemma emits_log P lvl l : emits P (log lvl l).
Proof.
  intros s. exists []. unfold log. cbn [snd].
  now rewrite history_print, app_nil_r.
Qed.

Lemma emits_call (P : Event -> Prop) {A} n op (o : Outcome A) :
  (forall t settle ok, P (mkEvent n op t settle ok)) -> emits P (call n op o).
Proof.
  intros HP s. unfold call.
  destruct o; cbn [snd]; eexists [_]; rewrite history_record;
    (split; [reflexivity | constructor; [apply HP | constructor]]).
Qed.

Lemma emits_bind P {A B} (m : M A) (k : A -> M B) :
  emits P m -> (forall a, emits P (k a)) -> emits P (bind m k).
Proof.
  intros Hm Hk s. destruct (Hm s) as (c1 & H1 & F1). unfold bind.
  destruct (m s) as [[a | e | ] s1]; cbn [snd] in *;
    try (exists c1; now split).
  destruct (Hk a s1) as (c2 & H2 & F2).
  exists (c1 ++ c2). rewrite H2, H1, app_assoc.
  split; [reflexivity | now apply Forall_app].
Qed.

Lemma emits_try_catch P {A} (m : M A) (h : JsError -> M A) :
  emits P m -> (forall e, emits P (h e)) -> emits P (try_catch m h).
Proof.
  intros Hm Hh s. destruct (Hm s) as (c1 & H1 & F1). unfold try_catch.
  destruct (m s) as [[a | e | ] s1]; cbn [snd] in *;
    try (exists c1; now split).
  destruct (Hh e s1) as (c2 & H2 & F2).
  exists (c1 ++ c2). rewrite H2, H1, app_assoc.
  split; [reflexivity | now apply Forall_app].
Qed.

Lemma or_undefined_not_empty ua : or_undefined ua <> Some "".
Proof. destruct ua as [[| c u] | ]; discriminate. Qed.

Lemma attempt_emits w url ua n :
  emits (attempt_call url ua n) (attemptScrape w url ua n).
Proof.
  unfold attemptScrape, attempt_body, attempt_handler, catch_null,
    eval_selector.
  repeat match goal with
         | |- emits _ (bind _ _) => apply emits_bind
         | |- emits _ (try_catch _ _) => apply emits_try_catch
         | |- emits _ (ret _) => apply emits_ret
         | |- emits _ (throw _) => apply emits_throw
         | |- emits _ (log _ _) => apply emits_log
         | |- emits _ (call _ _ _) => apply emits_call
         | |- forall _, _ => intro; cbv beta
         end;
    unfold attempt_call; cbn;
    repeat split; auto using or_undefined_not_empty; discriminate.
Qed.

Lemma attempt_call_ok url ua n e :
  n = 1%nat \/ n = 2%nat -> attempt_call url ua n e -> call_ok url ua e.
Proof.
  intros Hn (Ha & Hop & Hargs). unfold call_ok. rewrite Ha.
  destruct (ev_op e); try (now split); congruence.
Qed.

Lemma overall_emits w url ua : emits (call_ok url ua) (overallPromise w url ua).
Proof.
  intros s. rewrite overall_unrolled.
  destruct (attempt_emits w url ua 1 s) as (c1 & H1 & F1).
  assert (F1' : Forall (call_ok url ua) c1).
  { eapply Forall_impl; [ | exact F1]. intros e. apply attempt_call_ok. auto. }
  destruct (attemptScrape w url ua 1 s) as [[r | e1 | ] s1]; cbn [snd] in *;
    try (exists c1; now split).
  destruct (attempt_emits w url ua 2 s1) as (c2 & H2 & F2).
  exists (c1 ++ c2). rewrite H2, H1, app_assoc. split; [reflexivity | ].
  apply Forall_app. split; [exact F1' | ].
  eapply Forall_impl; [ | exact F2]. intros e. apply attempt_call_ok. auto.
Qed.

Lemma respond_error_trace t err s :
  trace (snd (respond_error t err s)) = trace s /\
  clock (snd (respond_error t err s)) = clock s.
Proof.
  unfold respond_error.
  now destruct (includes "Timeout" (message_or_default err)).
Qed.

(** The calls of the handler after a resolved import are those of the
    retry loop, whatever the race gives. *)
Lemma handler_runs_work isValidHttpUrl w req s1 :
  isValidHttpUrl (q_url req) = true ->
  call 0 OpImport (import_out w) (start 0) = (Ret tt, s1) ->
  trace (snd (handler isValidHttpUrl w req)) =
  trace (snd (overallPromise w (q_url req) (q_ua req) s1)) /\
  clock (snd (handler isValidHttpUrl w req)) =
  clock (snd (overallPromise w (q_url req) (q_ua req) s1)).
Proof.
  intros V I. unfold handler. rewrite V, I. cbn [negb]. unfold boundedWork.
  destruct (overallPromise w (q_url req) (q_ua req) s1) as [work s2].
  cbn [snd].
  destruct (race w (clock s1) work (clock s2)) as [[result | err] t].
  - now split.
  - apply respond_error_trace.
Qed.

(** X1: every engine call a request causes carries the arguments fixed by
    the route: the browser is launched headless, the context gets the [ua]
    parameter or nothing (never an empty user agent), the navigation goes to
    the request's url with the 15000 ms timeout, the queries use the two
    selectors, and apart from the import every call belongs to attempt 1 or
    attempt 2. *)
Theorem X1_engine_calls_carry_route_arguments isValidHttpUrl w req :
  Forall (call_ok (q_url req) (q_ua req))
         (history (snd (handler isValidHttpUrl w req))).
Proof.
  destruct (isValidHttpUrl (q_url req)) eqn:V.
  - destruct (call 0 OpImport (import_out w) (start 0)) as [[[] | e | ] s1]
      eqn:I.
    + destruct (handler_runs_work isValidHttpUrl w req s1 V I) as [T _].
      unfold history. rewrite T.
      fold (history (snd (overallPromise w (q_url req) (q_ua req) s1))).
      destruct (overall_emits w (q_url req) (q_ua req) s1) as (c & H & F).
      rewrite H. apply Forall_app. split; [ | exact F].
      unfold call in I. destruct (import_out w); inversion I; subst.
      cbn. now repeat constructor.
    + unfold handler. rewrite V, I. cbn [negb snd].
      unfold call in I. destruct (import_out w); inversion I; subst.
      cbn. now repeat constructor.
    + unfold handler. rewrite V, I. cbn [negb snd].
      unfold call in I. destruct (import_out w); inversion I; subst.
      cbn. now repeat constructor.
  - unfold handler. rewrite V. cbn. constructor.
Qed.

(** ** The deadline and the mapping of failures *)

Lemma prefix_spec a : forall s,
  String.prefix a s = true <-> exists rest, s = (a ++ rest)%string.
Proof.
  induction a as [| c a IH]; intros s.
  - split; [now exists s | now destruct s].
  - destruct s as [| c' s]; cbn;
      [split; [discriminate | now intros [r H]] | ].
    destruct (ascii_dec c c') as [-> | N].
    + rewrite IH. split; intros [r H]; exists r; [now rewrite H | ].
      now inversion H.
    + split; [discriminate | ]. intros [r H]. inversion H. congruence.
Qed.

Lemma includes_spec needle : forall s,
  includes needle s = true <-> contains needle s.
Proof.
  induction s as [| c s IH]; cbn [includes]; rewrite orb_true_iff.
  - split.
    + intros [H | H]; [ | discriminate].
      apply prefix_spec in H. destruct H as [r H]. now exists "", r.
    + intros ([| c b] & a & H); [ | discriminate].
      left. apply prefix_spec. now exists a.
  - rewrite IH. split.
    + intros [H | (b & a & H)].
      * apply prefix_spec in H. destruct H as [r H]. now exists "", r.
      * exists (String c b), a. cbn. now rewrite H.
    + intros ([| c' b] & a & H).
      * left. apply prefix_spec. now exists a.
      * right. inversion H. now exists b, a.
Qed.

Lemma work_first_le tf fires t : work_first tf fires t = true -> t <= fires.
Proof.
  unfold work_first. rewrite orb_true_iff, andb_true_iff, N.ltb_lt, N.eqb_eq.
  lia.
Qed.

Lemma message_or_default_not_empty err : message_or_default err <> "".
Proof.
  unfold message_or_default. destruct (message err); cbn; discriminate.
Qed.

(** X2: once the import has resolved, the handler responds, and it does so
    no later than 20000 ms after the import was through, whatever the
    engine does afterwards. *)
Theorem X2_response_by_the_deadline isValidHttpUrl w req s1 :
  isValidHttpUrl (q_url req) = true ->
  call 0 OpImport (import_out w) (start 0) = (Ret tt, s1) ->
  exists t resp,
    fst (handler isValidHttpUrl w req) = Responded t resp /\
    t <= clock s1 + GLOBAL_TIMEOUT_MS.
Proof.
  intros V I. unfold handler. rewrite V, I. cbn [negb].
  unfold boundedWork, race, race_with_timer, respond_error.
  fold (deadline (clock s1)).
  destruct (overallPromise w (q_url req) (q_ua req) s1) as [[r | e | ] s2];
    try destruct (work_first _ _ _) eqn:F;
    try apply work_first_le in F;
    repeat match goal with
           | |- context [includes ?a ?b] => destruct (includes a b)
           end;
    cbn [fst]; do 2 eexists; (split; [reflexivity | ]);
    first [exact F | apply N.le_refl].
Qed.

Lemma X2_response_by_the_deadline_witness :
  exists t resp,
    fst (handler isValidHttpUrl_model (always hung_page) example_request)
    = Responded t resp /\
    t <= 150 + GLOBAL_TIMEOUT_MS.
Proof.
  exact (X2_response_by_the_deadline isValidHttpUrl_model (always hung_page)
           example_request _ eq_refl eq_refl).
Defined.

(** X3: when the retry loop never settles, or settles only after the timer
    has fired, the handler answers 504 with [{ "error": "Timeout" }] at the
    instant the timer fires. *)
Theorem X3_timer_first_is_504_at_the_deadline isValidHttpUrl w req s1 :
  isValidHttpUrl (q_url req) = true ->
  call 0 OpImport (import_out w) (start 0) = (Ret tt, s1) ->
  fst (overallPromise w (q_url req) (q_ua req) s1) = Hang \/
  work_first (timer_first_on_tie w) (deadline (clock s1))
             (clock (snd (overallPromise w (q_url req) (q_ua req) s1)))
  = false ->
  fst (handler isValidHttpUrl w req) =
  Responded (clock s1 + GLOBAL_TIMEOUT_MS) timeout_response.
Proof.
  intros V I F.
  rewrite failure_mapping with (s1 := s1) (err := timeout_error)
    (t := deadline (clock s1))
    (s2 := snd (overallPromise w (q_url req) (q_ua req) s1));
    [reflexivity | exact V | exact I | ].
  unfold boundedWork, race, race_with_timer.
  destruct (overallPromise w (q_url req) (q_ua req) s1) as [[r | e | ] s2];
    cbn [fst snd] in *; destruct F as [F | F]; try discriminate;
    rewrite ?F; reflexivity.
Qed.

Lemma X3_timer_first_is_504_at_the_deadline_witness :
  fst (handler isValidHttpUrl_model (always slow_page) example_request) =
  Responded 20150 timeout_response.
Proof.
  exact (X3_timer_first_is_504_at_the_deadline isValidHttpUrl_model
           (always slow_page) example_request _ eq_refl eq_refl
           (or_intror eq_refl)).
Defined.

(** X4: when the retry loop rejects before the timer fires, the handler
    answers at that instant: 504 if the text used for the error (its
    message, or "Scraping failed" when the message is empty) contains
    "Timeout" anywhere, and otherwise 500 with that text as [details]. *)
Theorem X4_failures_are_told_apart_by_their_message
    isValidHttpUrl w req s1 err s2 :
  isValidHttpUrl (q_url req) = true ->
  call 0 OpImport (import_out w) (start 0) = (Ret tt, s1) ->
  overallPromise w (q_url req) (q_ua req) s1 = (Throw err, s2) ->
  work_first (timer_first_on_tie w) (deadline (clock s1)) (clock s2) = true ->
  (contains "Timeout" (message_or_default err) ->
   fst (handler isValidHttpUrl w req) = Responded (clock s2) timeout_response)
  /\
  (~ contains "Timeout" (message_or_default err) ->
   fst (handler isValidHttpUrl w req) =
   Responded (clock s2) (failed_response (message_or_default err))) /\
  (message err <> "" -> message_or_default err = message err).
Proof.
  intros V I W F.
  assert (B : boundedWork w (q_url req) (q_ua req) s1 =
              (inr err, clock s2, s2)).
  { unfold boundedWork, race, race_with_timer. now rewrite W, F. }
  pose proof (failure_mapping isValidHttpUrl w req s1 err _ s2 V I B) as M.
  split; [ | split].
  - intros C. apply includes_spec in C. now rewrite C in M.
  - intros C. destruct (includes "Timeout" (message_or_default err)) eqn:E;
      [ | exact M].
    apply includes_spec in E. contradiction.
  - unfold message_or_default. now destruct (message err).
Qed.

Lemma X4_failures_are_told_apart_by_their_message_witness :
  fst (handler isValidHttpUrl_model (always refused_page) example_request) =
  Responded 1810 (failed_response "page.goto: net::ERR_CONNECTION_REFUSED").
Proof.
  pose (s1 := snd (call 0 OpImport (import_out (always refused_page))
                        (start 0))).
  pose (run := overallPromise (always refused_page) (q_url example_request)
                 (q_ua example_request) s1).
  assert (W : run = (Throw (Error "page.goto: net::ERR_CONNECTION_REFUSED"),
                     snd run)) by (vm_compute; reflexivity).
  destruct (X4_failures_are_told_apart_by_their_message
              isValidHttpUrl_model (always refused_page) example_request
              s1 _ _ eq_refl eq_refl W eq_refl) as (_ & H & _).
  apply H. intros C. apply includes_spec in C. discriminate C.
Defined.

(** X5: a 500 response always has the body
    [{ "error": "Scraping failed", "details": ... }] with [details] a
    non-empty text that does not contain "Timeout". *)
Theorem X5_details_of_a_500 isValidHttpUrl w req t resp s :
  handler isValidHttpUrl w req = (Responded t resp, s) ->
  res_status resp = 500 ->
  exists details,
    resp = failed_response details /\
    details <> "" /\
    ~ contains "Timeout" details.
Proof.
  unfold handler.
  destruct (negb (isValidHttpUrl (q_url req))).
  - intros H; inversion H; subst. discriminate.
  - destruct (call 0 OpImport (import_out w) (start 0)) as [[[] | e | ] s1];
      try discriminate.
    destruct (boundedWork w (q_url req) (q_ua req) s1)
      as [[[result | err] t1] s2].
    + intros H; inversion H; subst. discriminate.
    + unfold respond_error.
      destruct (includes "Timeout" (message_or_default err)) eqn:E;
        intros H; inversion H; subst; [discriminate | ].
      intros _. exists (message_or_default err).
      split; [reflexivity | split; [apply message_or_default_not_empty | ]].
      intros C. apply includes_spec in C. congruence.
Qed.

Lemma X5_details_of_a_500_witness :
  exists details,
    failed_response "page.goto: net::ERR_CONNECTION_REFUSED" =
    failed_response details /\
    details <> "" /\ ~ contains "Timeout" details.
Proof.
  pose (run := handler isValidHttpUrl_model (always refused_page)
                       example_request).
  assert (H : run =
              (Responded 1810
                 (failed_response "page.goto: net::ERR_CONNECTION_REFUSED"),
               snd run)) by (vm_compute; reflexivity).
  exact (X5_details_of_a_500 isValidHttpUrl_model (always refused_page)
           example_request _ _ _ H eq_refl).
Defined.

(** ** The browser of an attempt *)

Ltac acquire w n :=
  destruct (launch_out (script w n)); try discriminate;
  destruct (newContext_out (script w n)); try discriminate;
  destruct (newPage_out (script w n)); try discriminate.

(** X6: once an attempt has its browser, context and page, every way out of
    it, returning or throwing, goes through a call of [browser.close()]. *)
Theorem X6_browser_closed_once_page_acquired w url ua n s :
  resolved (launch_out (script w n)) = true ->
  resolved (newContext_out (script w n)) = true ->
  resolved (newPage_out (script w n)) = true ->
  fst (attemptScrape w url ua n s) <> Hang ->
  launched n (snd (attemptScrape w url ua n s)) = true /\
  released n (snd (attemptScrape w url ua n s)) = true.
Proof.
  intros L C P H. split; [ | now apply attempt_releases_after_page].
  clear H. revert L C P. unfold launched, by_attempt. run_attempt. cbn.
  acquire w n. intros _ _ _. cbn.
  by_outcome (goto_out (script w n));
    [ | by_outcome (close_catch_out (script w n));
        rewrite ?Nat.eqb_refl; cbn; now rewrite ?orb_true_r
      | rewrite ?Nat.eqb_refl; cbn; now rewrite ?orb_true_r ].
  by_outcome (title_out (script w n));
    [ | by_outcome (close_catch_out (script w n));
        rewrite ?Nat.eqb_refl; cbn; now rewrite ?orb_true_r
      | rewrite ?Nat.eqb_refl; cbn; now rewrite ?orb_true_r ].
  by_outcome (meta_out (script w n));
    by_outcome (h1_out (script w n));
    try (by_outcome (close_try_out (script w n));
         [ | by_outcome (close_catch_out (script w n)) | ]);
    rewrite ?Nat.eqb_refl; cbn; now rewrite ?orb_true_r.
Qed.

Lemma X6_browser_closed_once_page_acquired_witness :
  released 1
    (snd (attemptScrape (always refused_page) (Some "https://example.com")
                        None 1 (start 0))) = true.
Proof.
  refine (proj2 (X6_browser_closed_once_page_acquired
                   (always refused_page) (Some "https://example.com") None 1
                   (start 0) eq_refl eq_refl eq_refl _)).
  vm_compute. discriminate.
Defined.

Lemma attempt_returns_after_close w url ua n s r s' :
  attemptScrape w url ua n s = (Ret r, s') ->
  exists e rest,
    trace s' = e :: rest /\
    ev_attempt e = n /\ ev_op e = OpClose /\ ev_ok e = true /\
    ev_settle e = Some (clock s').
Proof.
  run_attempt. cbn.
  by_outcome (launch_out (script w n)); try discriminate.
  by_outcome (newContext_out (script w n)); try discriminate.
  by_outcome (newPage_out (script w n)); try discriminate.
  by_outcome (goto_out (script w n));
    [ | by_outcome (close_catch_out (script w n)); discriminate
      | discriminate ].
  by_outcome (title_out (script w n));
    [ | by_outcome (close_catch_out (script w n)); discriminate
      | discriminate ].
  by_outcome (meta_out (script w n)); try discriminate;
    by_outcome (h1_out (script w n)); try discriminate;
    (by_outcome (close_try_out (script w n));
     [ | by_outcome (close_catch_out (script w n)); discriminate
       | discriminate ]);
    intros H; inversion H; subst; cbn;
    do 2 eexists; repeat split; reflexivity.
Qed.

(** X7: a 200 response is sent only after the browser of the attempt that
    produced the result was closed: the last engine call of the request is
    a [browser.close()] that resolved, and the response is sent at the
    instant it resolved. *)
Theorem X7_a_200_follows_a_successful_close isValidHttpUrl w req t resp s :
  handler isValidHttpUrl w req = (Responded t resp, s) ->
  res_status resp = 200 ->
  exists e rest,
    trace s = e :: rest /\
    ev_op e = OpClose /\ ev_ok e = true /\ ev_settle e = Some t.
Proof.
  unfold handler.
  destruct (negb (isValidHttpUrl (q_url req))).
  - intros H; inversion H; subst. discriminate.
  - destruct (call 0 OpImport (import_out w) (start 0)) as [[[] | e | ] s1];
      try discriminate.
    destruct (boundedWork w (q_url req) (q_ua req) s1)
      as [[[result | err] t1] s2] eqn:B.
    + intros H _. inversion H; subst.
      apply boundedWork_inl in B. destruct B as [B ->].
      apply overall_returns in B. destruct B as (n & s0 & B).
      apply attempt_returns_after_close in B.
      destruct B as (e & rest & T & _ & O & K & S).
      now exists e, rest.
    + intros H S. apply respond_error_shape in H.
      destruct H as [-> | [details ->]]; discriminate.
Qed.

Lemma X7_a_200_follows_a_successful_close_witness :
  exists e rest,
    trace (snd (handler isValidHttpUrl_model refused_then_example
                        example_request)) = e :: rest /\
    ev_op e = OpClose /\ ev_ok e = true /\ ev_settle e = Some 2325.
Proof.
  pose (run := handler isValidHttpUrl_model refused_then_example
                       example_request).
  assert (H : run =
              (Responded 2325
                 (ok_response (result_of example_page "Example Domain")),
               snd run)) by (vm_compute; reflexivity).
  exact (X7_a_200_follows_a_successful_close isValidHttpUrl_model
           refused_then_example example_request _ _ _ H eq_refl).
Defined.

(** X8: when the navigation or the title query rejects with [e], what the
    attempt propagates depends on the [browser.close()] of the catch block:
    [e] if that close resolves, the error of the close instead of [e] if it
    rejects, and nothing at all if it never settles. *)
Theorem X8_cleanup_failure_replaces_the_error w url ua n s d e :
  resolved (launch_out (script w n)) = true ->
  resolved (newContext_out (script w n)) = true ->
  resolved (newPage_out (script w n)) = true ->
  goto_out (script w n) = Rejects d e \/
  (resolved (goto_out (script w n)) = true /\
   title_out (script w n) = Rejects d e) ->
  fst (attemptScrape w url ua n s) =
  match close_catch_out (script w n) with
  | Resolves _ _ => Throw e
  | Rejects _ e' => Throw e'
  | Hangs => Hang
  end.
Proof.
  run_attempt. cbn. acquire w n. intros _ _ _ [G | [G T]].
  - rewrite G. cbn. now destruct (close_catch_out (script w n)).
  - destruct (goto_out (script w n)); try discriminate.
    rewrite T. cbn. now destruct (close_catch_out (script w n)).
Qed.

Lemma X8_cleanup_failure_replaces_the_error_witness :
  fst (attemptScrape (always stubborn_browser) (Some "https://example.com")
                     None 1 (start 0)) =
  Throw (Error "browser.close: Target closed").
Proof.
  exact (X8_cleanup_failure_replaces_the_error
           (always stubborn_browser) (Some "https://example.com") None 1
           (start 0) 300 (Error "page.goto: net::ERR_NAME_NOT_RESOLVED")
           eq_refl eq_refl eq_refl (or_introl eq_refl)).
Defined.

(** ** The retry loop and the timer *)

Lemma launches_after_import w s1 :
  call 0 OpImport (import_out w) (start 0) = (Ret tt, s1) ->
  launches s1 = 0%nat.
Proof.
  unfold call. destruct (import_out w); intros H; inversion H; subst.
  reflexivity.
Qed.

(** X9: the retry loop does not know about the timer.  After a resolved
    import the engine calls of a request are those of the retry loop run to
    its end, whatever the race gave; so one browser is launched when the
    first attempt returns or never settles, and two whenever it throws,
    also when it throws after the 504 has been sent. *)
Theorem X9_retry_loop_ignores_the_timer isValidHttpUrl w req s1 :
  isValidHttpUrl (q_url req) = true ->
  call 0 OpImport (import_out w) (start 0) = (Ret tt, s1) ->
  history (snd (handler isValidHttpUrl w req)) =
  history (snd (overallPromise w (q_url req) (q_ua req) s1)) /\
  launches (snd (handler isValidHttpUrl w req)) =
  match fst (attemptScrape w (q_url req) (q_ua req) 1 s1) with
  | Throw _ => 2%nat
  | _ => 1%nat
  end.
Proof.
  intros V I.
  destruct (handler_runs_work isValidHttpUrl w req s1 V I) as [T _].
  unfold history, launches. rewrite T. split; [reflexivity | ].
  fold (launches (snd (overallPromise w (q_url req) (q_ua req) s1))).
  rewrite overall_unrolled.
  pose proof (attempt_launches_once w (q_url req) (q_ua req) 1 s1) as L1.
  rewrite (launches_after_import w s1 I) in L1.
  destruct (attemptScrape w (q_url req) (q_ua req) 1 s1)
    as [[r | e1 | ] s2]; cbn [fst snd] in *; try exact L1.
  rewrite attempt_launches_once. now rewrite L1.
Qed.

Lemma X9_retry_loop_ignores_the_timer_witness :
  fst (handler isValidHttpUrl_model (always sluggish_page) example_request) =
  Responded 20150 timeout_response /\
  launches (snd (handler isValidHttpUrl_model (always sluggish_page)
                         example_request)) = 2%nat.
Proof.
  split; [vm_compute; reflexivity | ].
  exact (proj2 (X9_retry_loop_ignores_the_timer isValidHttpUrl_model
                  (always sluggish_page) example_request _
                  eq_refl eq_refl)).
Defined.

Ltac found_error :=
  let H := fresh in
  intros H; inversion H; subst; rewrite ?in_app_iff; cbn; solve [auto 12].

Lemma attempt_throws_from w url ua n s e s' :
  attemptScrape w url ua n s = (Throw e, s') ->
  In e (surfacing_errors (script w n)).
Proof.
  unfold surfacing_errors. run_attempt. cbn.
  by_outcome (launch_out (script w n)); try found_error.
  by_outcome (newContext_out (script w n)); try found_error.
  by_outcome (newPage_out (script w n)); try found_error.
  by_outcome (goto_out (script w n));
    [ | by_outcome (close_catch_out (script w n)); found_error
      | discriminate ].
  by_outcome (title_out (script w n));
    [ | by_outcome (close_catch_out (script w n)); found_error
      | discriminate ].
  by_outcome (meta_out (script w n)); try discriminate;
    by_outcome (h1_out (script w n)); try discriminate;
    (by_outcome (close_try_out (script w n));
     [ | by_outcome (close_catch_out (script w n)) | ]);
    found_error.
Qed.

(** X10: the retry loop rejects only with an error that a call of the
    second attempt rejected with, the two selector queries excepted, and
    only after the first attempt threw such an error of its own; the
    "Unknown error" of the final [reject] is never made. *)
Theorem X10_rejection_comes_from_the_second_attempt w url ua s e s' :
  overallPromise w url ua s = (Throw e, s') ->
  In e (surfacing_errors (script w 2)) /\
  exists e1 s1,
    attemptScrape w url ua 1 s = (Throw e1, s1) /\
    In e1 (surfacing_errors (script w 1)) /\
    attemptScrape w url ua 2 s1 = (Throw e, s').
Proof.
  rewrite overall_unrolled.
  destruct (attemptScrape w url ua 1 s) as [[r | e1 | ] s1] eqn:A1;
    try discriminate.
  intros A2. split; [now apply attempt_throws_from in A2 | ].
  exists e1, s1. repeat split; [ | exact A2].
  now apply attempt_throws_from in A1.
Qed.

Lemma X10_rejection_comes_from_the_second_attempt_witness :
  In (Error "page.goto: Timeout 15000ms exceeded.")
     (surfacing_errors slow_page).
Proof.
  pose (run := overallPromise refused_then_slow (Some "https://example.com")
                 None (start 150)).
  assert (H : run = (Throw (Error "page.goto: Timeout 15000ms exceeded."),
                     snd run)) by (vm_compute; reflexivity).
  exact (proj1 (X10_rejection_comes_from_the_second_attempt
                  refused_then_slow (Some "https://example.com") None
                  (start 150) _ _ H)).
Defined.

(** ** The h1 text *)








(** ** The import *)

(** X12: when the dynamic import of the engine does not resolve, the
    handler sends no response of its own (not even a 500 or a 504, since no
    timer was started) and launches no browser; the import is the only
    engine call of the request. *)
Theorem X12_failed_import_leaves_no_response isValidHttpUrl w req :
  isValidHttpUrl (q_url req) = true ->
  resolved (import_out w) = false ->
  (forall t resp, fst (handler isValidHttpUrl w req) <> Responded t resp) /\
  launches (snd (handler isValidHttpUrl w req)) = 0%nat /\
  length (history (snd (handler isValidHttpUrl w req))) = 1%nat /\
  (forall d e, import_out w = Rejects d e ->
               fst (handler isValidHttpUrl w req) = Escaped e).
Proof.
  intros V R. unfold handler. rewrite V. cbn [negb]. unfold call.
  destruct (import_out w) as [d [] | d e | ]; try discriminate; cbn;
    repeat split; try discriminate; intros; congruence.
Qed.

Lemma X12_failed_import_leaves_no_response_witness :
  fst (handler isValidHttpUrl_model
         (mkWorld (Rejects 5 (Error "Cannot find module 'playwright'"))
                  (fun _ => example_page) false)
         example_request) =
  Escaped (Error "Cannot find module 'playwright'").
Proof.
  exact (proj2 (proj2 (proj2
           (X12_failed_import_leaves_no_response isValidHttpUrl_model
              (mkWorld (Rejects 5 (Error "Cannot find module 'playwright'"))
                       (fun _ => example_page) false)
              example_request eq_refl eq_refl)))
           5 _ eq_refl).
Defined.

(** ** Closing twice *)

Ltac count_closes :=
  solve [ split;
          [ lia
          | split;
            [ intros; first [reflexivity | lia]
            | intros; first [discriminate | reflexivity | lia] ] ] ].

(** X13: an attempt calls [browser.close()] at most twice; it calls it
    exactly once on the way to a returned result, and twice only when the
    close of the try block rejected and the catch block closed again. *)
Theorem X13_close_is_called_at_most_twice w url ua n s :
  (closes (snd (attemptScrape w url ua n s)) <= closes s + 2)%nat /\
  (closes (snd (attemptScrape w url ua n s)) = (closes s + 2)%nat ->
   rejected (close_try_out (script w n)) = true) /\
  (forall r, fst (attemptScrape w url ua n s) = Ret r ->
             closes (snd (attemptScrape w url ua n s)) = S (closes s)).
Proof.
  unfold closes. run_attempt. cbn.
  by_outcome (launch_out (script w n)); try count_closes.
  by_outcome (newContext_out (script w n)); try count_closes.
  by_outcome (newPage_out (script w n)); try count_closes.
  by_outcome (goto_out (script w n));
    [ | by_outcome (close_catch_out (script w n)); count_closes
      | count_closes ].
  by_outcome (title_out (script w n));
    [ | by_outcome (close_catch_out (script w n)); count_closes
      | count_closes ].
  by_outcome (meta_out (script w n));
    by_outcome (h1_out (script w n));
    try count_closes;
    (by_outcome (close_try_out (script w n));
     [ | by_outcome (close_catch_out (script w n)) | ]);
    count_closes.
Qed.

(** ** What the handler prints as an error *)

Lemma attempt_error_lines w url ua n s :
  error_lines (snd (attemptScrape w url ua n s)) = error_lines s.
Proof.
  unfold error_lines. run_attempt. cbn.
  by_outcome (launch_out (script w n)); try reflexivity.
  by_outcome (newContext_out (script w n)); try reflexivity.
  by_outcome (newPage_out (script w n)); try reflexivity.
  by_outcome (goto_out (script w n));
    [ | by_outcome (close_catch_out (script w n)); reflexivity
      | reflexivity ].
  by_outcome (title_out (script w n));
    [ | by_outcome (close_catch_out (script w n)); reflexivity
      | reflexivity ].
  by_outcome (meta_out (script w n)); try reflexivity;
    by_outcome (h1_out (script w n)); try reflexivity;
    (by_outcome (close_try_out (script w n));
     [ | by_outcome (close_catch_out (script w n)) | ]; reflexivity).
Qed.

Lemma overall_error_lines w url ua s :
  error_lines (snd (overallPromise w url ua s)) = error_lines s.
Proof.
  rewrite overall_unrolled.
  pose proof (attempt_error_lines w url ua 1 s) as E1.
  destruct (attemptScrape w url ua 1 s) as [[r | e1 | ] s1];
    cbn [snd] in *; try exact E1.
  now rewrite attempt_error_lines.
Qed.

(** X14: the handler of [routes/scrape.ts] prints with [console.error]
    exactly when it answers 504 or 500: one line, at the time of the
    response, "timed out" for a 504 and the [details] of the body for a
    500; a request answered 200 or 400 leaves no error line. *)
Theorem X14_one_error_line_per_failed_request isValidHttpUrl w req t resp s :
  handler isValidHttpUrl w req = (Responded t resp, s) ->
  (res_status resp = 504 ->
   error_lines s = [(t, ErrorLevel, LogTimedOut)]) /\
  (res_status resp = 500 ->
   exists details,
     resp = failed_response details /\
     error_lines s = [(t, ErrorLevel, LogScraperError details)]) /\
  (res_status resp = 200 \/ res_status resp = 400 -> error_lines s = []).
Proof.
  unfold handler.
  destruct (negb (isValidHttpUrl (q_url req))).
  - intros H; inversion H; subst.
    split; [discriminate | split; [discriminate | reflexivity]].
  - destruct (call 0 OpImport (import_out w) (start 0))
      as [[[] | e | ] s1] eqn:I; try discriminate.
    assert (E1 : error_lines s1 = []).
    { unfold call in I. destruct (import_out w); inversion I; subst.
      reflexivity. }
    unfold boundedWork.
    pose proof (overall_error_lines w (q_url req) (q_ua req) s1) as E2.
    destruct (overallPromise w (q_url req) (q_ua req) s1) as [work s2].
    cbn [snd] in E2. rewrite E1 in E2.
    destruct (race w (clock s1) work (clock s2)) as [[result | err] t1].
    + intros H; inversion H; subst.
      split; [discriminate | split; [discriminate | intros _; exact E2]].
    + unfold respond_error.
      destruct (includes "Timeout" (message_or_default err));
        intros H; inversion H; subst; unfold error_lines; cbn;
        fold (error_lines s2); rewrite E2.
      * split; [reflexivity | split; [discriminate | ]].
        intros [D | D]; discriminate.
      * split; [discriminate | split].
        -- intros _. now exists (message_or_default err).
        -- intros [D | D]; discriminate.
Qed.

Lemma X14_one_error_line_per_failed_request_witness :
  error_lines
    (snd (handler isValidHttpUrl_model refused_then_slow example_request)) =
  [(16510, ErrorLevel, LogTimedOut)].
Proof.
  pose (run := handler isValidHttpUrl_model refused_then_slow
                       example_request).
  assert (H : run = (Responded 16510 timeout_response, snd run))
    by (vm_compute; reflexivity).
  exact (proj1 (X14_one_error_line_per_failed_request isValidHttpUrl_model
                  refused_then_slow example_request _ _ _ H) eq_refl).
Defined.

(** ** The console of the second route file *)



